(** * witsGWAS quickstart pipeline: configuration scaffold

    A shallow embedding of the three Python files of the quickstart
    pipeline template:

    - [pipeline_quickstart_stages_config.py]  (module [StagesConfig]),
    - [version1/pipeline_quickstart_config.py] (module [Config]),
    - [version1/pipeline_quickstart.py]        (module [Quickstart]).

    Python dictionaries are finite maps with string keys, Python values
    are a small tagged union, and the start-up script is a program in a
    trace-and-exception monad whose events are the calls it makes to its
    collaborators (printing, directory and file creation). *)

From Stdlib Require Import ZArith Lia Ascii String DecimalString.
From Stdlib Require DecimalNat.
From stdpp Require Import gmap strings list fin_maps.

Open Scope string_scope.
Open Scope list_scope.

(** ** Python values *)

(** The values that occur in the configuration dictionaries. *)
#[local] Unset Elimination Schemes.
Inductive pyval : Type :=
  | PyNone
  | PyBool (b : bool)
  | PyInt (z : Z)
  | PyStr (s : string)
  | PyList (l : list pyval).
#[local] Set Elimination Schemes.

(** A dictionary with string keys. *)
Abbreviation pydict := (gmap string pyval).

(** ** [os.path.join] (posixpath) *)

Module OsPath.

Definition startswith_slash (s : string) : bool :=
  match s with
  | String "/"%char _ => true
  | _ => false
  end.

Fixpoint endswith_slash (s : string) : bool :=
  match s with
  | EmptyString => false
  | String c EmptyString => if decide (c = "/"%char) then true else false
  | String _ rest => endswith_slash rest
  end.

(** One turn of the loop of [posixpath.join]:
<<
    if b.startswith('/'):                  path = b
    elif path == '' or path.endswith('/'): path += b
    else:                                  path += '/' + b
>> *)
Definition join_step (path b : string) : string :=
  if startswith_slash b then b
  else if decide (path = "") then path +:+ b
  else if endswith_slash path then path +:+ b
  else path +:+ "/" +:+ b.

(** [os.path.join(a, *p)]. *)
Definition join (a : string) (p : list string) : string :=
  fold_left join_step p a.

End OsPath.

(** ** [pipeline_quickstart_stages_config.py] *)

Module StagesConfig.

Definition stageDefaults : pydict :=
  <["distributed" := PyBool true]>
 (<["queue" := PyStr "WitsLong"]>
 (<["walltime" := PyStr "6:00:00"]>
 (<["memInGB" := PyInt 16]>
 (<["name" := PyNone]>
 (<["modules" := PyList [PyStr "gwaspipe"]]> ∅))))).

Definition stages : gmap string pydict :=
  <["task1" := <["command" := PyStr ""]> ∅]>
 (<["task2" := <["command" := PyStr ""]> ∅]>
 (<["task3" := <["command" := PyStr ""]> ∅]> ∅)).

(** Modelled from the spec: the option lookup of the orchestration
    framework, which is not part of these files.  A per-stage value
    overrides the default (section 4.3: per-stage values "override (do
    not merge with) global defaults"; the comment above [stageDefaults]
    in the source: the defaults "are applied to each stage" and "can be
    overridden by options defined for individual stages"). *)
Definition stageOption (entry : pydict) (opt : string) : option pyval :=
  match entry !! opt with
  | Some v => Some v
  | None => stageDefaults !! opt
  end.

End StagesConfig.

(** ** [version1/pipeline_quickstart_config.py] *)

Module Config.

Definition working_files : pydict := ∅.

Definition preselected_cutoff : pydict := ∅.

(** [CURRENT_PROJECT_DIR] is the value of [SC.CURRENT_PROJECT_DIR] at the
    time the configuration module is loaded; [WitsgwasScripts] is not
    part of these files, so it is a parameter here. *)
Definition pipeline (CURRENT_PROJECT_DIR : string) : pydict :=
  <["logDir" := PyStr (OsPath.join CURRENT_PROJECT_DIR ["log_quickstart"])]>
 (<["logFile" := PyStr "pipeline_quickstart.log"]>
 (<["style" := PyStr "print"]>
 (<["procs" := PyInt 30]>
 (<["verbose" := PyInt 1]>
 (<["end" := PyList [PyStr "quickstart_end_task"]]>
 (<["force" := PyList []]>
 (<["rebuild" := PyStr "fromstart"]>
 (<["restrict_samples" := PyBool false]>
 (<["allowed_samples" := PyList []]> ∅))))))))).

End Config.

(** ** [version1/pipeline_quickstart.py] *)

Module Quickstart.

(** *** Collaborators *)

(** The exceptions the start-up code can raise. *)
Inductive exn : Type :=
  | KeyError (key : string)      (* [d[key]] with [key] absent *)
  | AttributeError               (* [os.path.join] on a non-string *)
  | ValueError.                  (* [strftime] on a year before 1900 *)

(** The calls the script makes to the outside, in order. *)
Inductive event : Type :=
  | Ev_print (fmt : string) (args : list pyval)  (* [print fmt % args] *)
  | Ev_create_dir (path : string)                 (* [FM.create_dir] *)
  | Ev_chdir (path : string)                     (* [os.chdir] *)
  | Ev_getcwd                                    (* [os.getcwd] *)
  | Ev_create_emptyfile (path : string).          (* [FM.create_emptyfile] *)

(** A computation appends to the trace and returns or raises. *)
Definition M (A : Type) : Type := list event → list event * (exn + A).

Definition ret {A} (a : A) : M A := λ tr, (tr, inr a).

Definition raise {A} (x : exn) : M A := λ tr, (tr, inl x).

Definition bind {A B} (m : M A) (k : A → M B) : M B :=
  λ tr, match m tr with
        | (tr', inr a) => k a tr'
        | (tr', inl x) => (tr', inl x)
        end.

Definition emit (ev : event) : M unit := λ tr, (tr ++ [ev], inr tt).

#[export] Instance M_ret : MRet M := @ret.
#[export] Instance M_bind : MBind M := λ A B k m, bind m k.

(** [d[key]]. *)
Definition getitem (d : pydict) (key : string) : M pyval :=
  match d !! key with
  | Some v => ret v
  | None => raise (KeyError key)
  end.

(** An argument of [os.path.join]: the loop calls [b.startswith], which
    only strings have. *)
Definition path_arg (v : pyval) : M string :=
  match v with
  | PyStr s => ret s
  | _ => raise AttributeError
  end.

(** *** [datetime] and [strftime('%Y-%m-%d_%H-%M-%S')] *)

Record datetime : Type := {
  year : nat; month : nat; day : nat;
  hour : nat; minute : nat; second : nat
}.

Definition decimal (n : nat) : string :=
  NilZero.string_of_uint (Nat.to_uint n).

Fixpoint zeros (k : nat) : string :=
  match k with
  | O => ""
  | S k' => "0" +:+ zeros k'
  end.

(** A decimal field padded with zeros to [w] characters. *)
Definition zfill (w : nat) (n : nat) : string :=
  zeros (w - String.length (decimal n)) +:+ decimal n.

Definition strftime (d : datetime) : M string :=
  if (year d <? 1900)%nat then raise ValueError
  else ret (zfill 4 (year d) +:+ "-" +:+ zfill 2 (month d) +:+ "-" +:+
            zfill 2 (day d) +:+ "_" +:+ zfill 2 (hour d) +:+ "-" +:+
            zfill 2 (minute d) +:+ "-" +:+ zfill 2 (second d)).

(** *** What the script reads *)

Record env : Type := {
  working_files : pydict;           (* [pipeline_options.working_files] *)
  pipeline : pydict;                (* [pipeline_options.pipeline] *)
  witsGWAS_PROJECTS_DIR : string;   (* [SC.witsGWAS_PROJECTS_DIR] *)
  banner : string;                  (* [f.renderText('witsGWAS')] *)
  now : datetime;                   (* [datetime.datetime.now()] *)
  getcwd : string                   (* [os.getcwd()] after the [chdir] *)
}.

Definition witsGWAS_SCRIPTS_ROOT_DIR : string := "absolute/path/to/witsGWAS/".

(** [SC.CURRENT_PROJECT_DIR], lines 88-89. *)
Definition CURRENT_PROJECT_DIR (e : env) : M string :=
  v ← getitem (working_files e) "projectname";
  projectname ← path_arg v;
  stamp ← strftime (now e);
  ret (OsPath.join (witsGWAS_PROJECTS_DIR e) [projectname]
         +:+ "-pipeline_quickstart-" +:+ stamp +:+ "/").

(** [pipeline_quickstart_plots], line 111. *)
Definition pipeline_quickstart_plots (current_project_dir : string) : string :=
  OsPath.join witsGWAS_SCRIPTS_ROOT_DIR
    [current_project_dir; "pipeline_quickstart_plots"] +:+ "/".

(** The module body, top to bottom. *)
Definition script (e : env) : M unit :=
  logDir ← getitem (pipeline e) "logDir";
  emit (Ev_print (banner e) []);;
  emit (Ev_print "(C) 2015 Lerato E. Magosi, Scott Hazelhurst" []);;
  emit (Ev_print "http://magosil86.github.io/witsGWAS/" []);;
  emit (Ev_print "witsGWAS v0.1.0 is licensed under the MIT license. See LICENSE.txt" []);;
  emit (Ev_print "----------------------------------------------------------------" []);;
  dir ← CURRENT_PROJECT_DIR e;
  emit (Ev_print "Current project directory %s" [PyStr dir]);;
  emit (Ev_create_dir dir);;
  emit (Ev_chdir dir);;
  emit Ev_getcwd;;
  emit (Ev_print "Current working directory %s" [PyStr (getcwd e)]);;
  emit (Ev_create_dir (pipeline_quickstart_plots dir));;
  name ← getitem (working_files e) "projectname";
  emit (Ev_print "Starting project %s" [name]);;
  emit (Ev_print "" []);;
  emit (Ev_print "Intermediate files and output will be stored in %s" [PyStr dir]);;
  emit (Ev_print "Log dir is %s" [logDir]);;
  author ← getitem (working_files e) "projectauthor";
  emit (Ev_print "Project author is %s" [author]);;
  emit (Ev_print "" []);;
  emit (Ev_create_emptyfile "pipeline_quickstart.Start").

Definition run (e : env) : list event * (exn + unit) := script e [].

(** The directories and the files a trace creates. *)
Definition created_dirs (tr : list event) : list string :=
  omap (λ ev, match ev with Ev_create_dir p => Some p | _ => None end) tr.

Definition created_files (tr : list event) : list string :=
  omap (λ ev, match ev with Ev_create_emptyfile p => Some p | _ => None end) tr.

(** The configuration as shipped. *)
Definition shipped (sc_current_project_dir projects_dir banner_text : string)
    (t : datetime) (cwd : string) : env :=
  {| working_files := Config.working_files;
     pipeline := Config.pipeline sc_current_project_dir;
     witsGWAS_PROJECTS_DIR := projects_dir;
     banner := banner_text;
     now := t;
     getcwd := cwd |}.

End Quickstart.

(** ** The stage-graph executor of the specification

    None of the three files schedules anything: the executor is the design
    of specification sections 3 to 5.  Every definition of this module is
    written from those sections. *)

Module Design.

(** Modelled from the spec: the Stage of section 3 (no file of the
    repository declares it): a command template, declared input and
    output paths, upstream dependencies by name, a resource request, an
    execution mode and the environment modules. *)
Record Stage : Type := {
  command : string;
  inputs : list string;
  outputs : list string;
  dependencies : list string;
  distributed : bool;
  walltime : string;
  memInGB : Z;
  queue : string;
  modules : list string
}.

(** *** Stage Registry (section 4.1) *)

(** Modelled from the spec: the dependency edges of a registry, "a
    mapping from stage name to stage definition"; the scheduler's code is
    absent. *)
Definition dep (reg : gmap string Stage) (a b : string) : Prop :=
  ∃ st, reg !! a = Some st ∧ b ∈ dependencies st.

(** Modelled from the spec: the declared dependencies of one stage, as a
    set (section 3: a "set of upstream-stage dependencies (by name)"). *)
Definition deps_of (reg : gmap string Stage) (a : string) : gset string :=
  match reg !! a with
  | Some st => list_to_set (dependencies st)
  | None => ∅
  end.

(** Modelled from the spec: every stage name a registry mentions, defined
    or only referred to as a dependency; it bounds the search below. *)
Definition nodes (reg : gmap string Stage) : gset string :=
  dom reg ∪ set_bind (deps_of reg) (dom reg).

(** Modelled from the spec: one more dependency edge followed from the
    stages of [R] ("directly or transitively", section 3). *)
Definition expand (reg : gmap string Stage) (R : gset string) : gset string :=
  R ∪ set_bind (deps_of reg) R.

(** Modelled from the spec: the stages [a] depends on, "directly or
    transitively" (section 3); the registry's code is absent. *)
Definition reach (reg : gmap string Stage) (a : string) : gset string :=
  Nat.iter (size (nodes reg)) (expand reg) (deps_of reg a).

(** Modelled from the spec: the [ConfigurationError] of sections 4.1 and
    7, raised for an "unknown stage reference" or a "cyclic dependency"
    and carrying "a full cycle/reference trace". *)
Record ConfigurationError : Type := {
  unknown_references : list (string * string);  (* stage, missing dependency *)
  cyclic : list string                          (* the stages on a cycle *)
}.

(** Modelled from the spec: the declared dependency names that do not
    exist (section 4.1), each with the stage that declares it. *)
Definition unknown_refs (reg : gmap string Stage) : list (string * string) :=
  '(a, st) ← map_to_list reg;
  d ← filter (λ d, reg !! d = None) (dependencies st);
  [(a, d)].

(** Modelled from the spec: the stages that depend, "directly or
    transitively", on themselves (section 3). *)
Definition on_cycle (reg : gmap string Stage) : list string :=
  filter (λ a, a ∈ reach reg a) (elements (dom reg)).

(** Modelled from the spec: registry validation (section 4.1), which
    "validates that every declared dependency name exists and that the
    dependency graph is acyclic (fails with ConfigurationError otherwise,
    naming the cycle)". *)
Definition validate (reg : gmap string Stage) : ConfigurationError + unit :=
  match unknown_refs reg, on_cycle reg with
  | [], [] => inr tt
  | unknown, cyc => inl {| unknown_references := unknown; cyclic := cyc |}
  end.

(** *** Staleness Resolver (section 4.2) *)

(** Modelled from the spec: the Checkpoint Record of section 3, a
    "per-stage completion marker (timestamp, exit status)". *)
Record Checkpoint : Type := { stamp : Z; exit_status : Z }.

(** Modelled from the spec: what the resolver consults (sections 3 and
    4.2): the timestamps of the files that exist, and the checkpoint store
    with one record per stage. *)
Record World : Type := {
  files : gmap string Z;
  checkpoints : gmap string Checkpoint
}.

(** Modelled from the spec: a stage is up to date when "all declared
    outputs exist and are newer than all declared inputs and newer than
    the stage's own last successful checkpoint"; "a stage with no
    declared outputs is always treated as stale"; equal timestamps count
    as up to date.  A declared input that does not exist, or no
    successful checkpoint, leaves nothing to compare with and the stage
    is stale. *)
Definition up_to_date (st : Stage) (ck : option Checkpoint)
    (fs : gmap string Z) : bool :=
  match outputs st with
  | [] => false
  | outs =>
      forallb (λ o,
        match fs !! o with
        | None => false
        | Some t_out =>
            forallb (λ i,
              match fs !! i with
              | Some t_in => bool_decide (t_in ≤ t_out)%Z
              | None => false
              end) (inputs st)
            && match ck with
               | Some c => bool_decide (exit_status c = 0%Z)
                           && bool_decide (stamp c ≤ t_out)%Z
               | None => false
               end
        end) outs
  end.

(** Modelled from the spec: the resolver's answer; "forced-rerun stage
    names are always treated as stale regardless of timestamps". *)
Definition stale (force : list string) (name : string) (st : Stage)
    (ck : option Checkpoint) (fs : gmap string Z) : bool :=
  bool_decide (name ∈ force) || negb (up_to_date st ck fs).

(** *** Run Controller (section 4.4) *)

(** Modelled from the spec: the per-stage states of section 4.4. *)
Inductive status : Type := PENDING | RUNNING | SUCCEEDED | FAILED | SKIPPED.

#[export] Instance status_eq_dec : EqDecision status.
Proof. solve_decision. Defined.

(** Modelled from the spec: a state of the controller, the state of each
    stage of the run together with the files and checkpoints. *)
Record config : Type := {
  statuses : gmap string status;
  world : World
}.

(** Modelled from the spec: a stage has begun once it has left [PENDING]
    through [RUNNING] (section 4.4). *)
Definition begun (s : status) : Prop :=
  s = RUNNING ∨ s = SUCCEEDED ∨ s = FAILED.

(** Modelled from the spec: "a terminal successful or skipped state"
    (section 5), which lets a dependent go on. *)
Definition satisfied (s : option status) : Prop :=
  s = Some SUCCEEDED ∨ s = Some SKIPPED.

(** Modelled from the spec: the number of "simultaneously active stages"
    (section 4.3). *)
Definition running (σ : gmap string status) : nat :=
  size (filter (λ kv, kv.2 = RUNNING) σ).

(** Modelled from the spec: the stages of a run, "all requested stages
    and their transitive dependencies", all [PENDING] at the start. *)
Definition scope (reg : gmap string Stage) (targets : list string) : gset string :=
  list_to_set targets ∪ set_bind (reach reg) (list_to_set targets : gset string).

(** Modelled from the spec: the initial state of section 4.4, every stage
    of the run [PENDING]. *)
Definition initial (reg : gmap string Stage) (targets : list string)
    (w : World) : config :=
  {| statuses := gset_to_gmap PENDING (scope reg targets); world := w |}.

(** Modelled from the spec: what the controller does with a request: a
    configuration error is "fatal, aborts before any execution"; an end
    target that is no stage is an unknown stage reference. *)
Definition start (reg : gmap string Stage) (targets : list string)
    (w : World) : ConfigurationError + config :=
  match validate reg with
  | inl err => inl err
  | inr _ =>
      match filter (λ t, reg !! t = None) targets with
      | [] => inr (initial reg targets w)
      | missing =>
          inl {| unknown_references := (λ t, ("end", t)) <$> missing;
                 cyclic := [] |}
      end
  end.

Section Controller.

Variable reg : gmap string Stage.
Variable force : list string.
Variable procs : nat.

(** Modelled from the spec: the resolver as the controller asks it, with
    the stage's own Checkpoint Record. *)
Definition resolver (a : string) (st : Stage) (w : World) : bool :=
  stale force a st (checkpoints w !! a) (files w).

(** Modelled from the spec: the transitions of section 4.4.
    [PENDING → RUNNING] "when all dependencies are SUCCEEDED/SKIPPED and
    the Staleness Resolver marks it stale", under the concurrency cap of
    section 4.3; [PENDING → SKIPPED] "when up-to-date", but "a stage
    whose dependency reaches FAILED is never scheduled"; [RUNNING →
    SUCCEEDED] and [RUNNING → FAILED] "per Dispatcher result", the
    Dispatcher writing the stage's Checkpoint Record; what the command
    did to the files shows when it ends. *)
Inductive step : config → config → Prop :=
  | step_run a st σ w :
      σ !! a = Some PENDING →
      reg !! a = Some st →
      (∀ d, d ∈ dependencies st → satisfied (σ !! d)) →
      resolver a st w = true →
      running σ < procs →
      step {| statuses := σ; world := w |}
           {| statuses := <[a := RUNNING]> σ; world := w |}
  | step_skip a st σ w :
      σ !! a = Some PENDING →
      reg !! a = Some st →
      (∀ d, d ∈ dependencies st → σ !! d ≠ Some FAILED) →
      resolver a st w = false →
      step {| statuses := σ; world := w |}
           {| statuses := <[a := SKIPPED]> σ; world := w |}
  | step_succeed a σ w fs t :
      σ !! a = Some RUNNING →
      step {| statuses := σ; world := w |}
           {| statuses := <[a := SUCCEEDED]> σ;
              world := {| files := fs;
                          checkpoints :=
                            <[a := {| stamp := t; exit_status := 0 |}]>
                              (checkpoints w) |} |}
  | step_fail a σ w fs t code :
      σ !! a = Some RUNNING →
      code ≠ 0%Z →
      step {| statuses := σ; world := w |}
           {| statuses := <[a := FAILED]> σ;
              world := {| files := fs;
                          checkpoints :=
                            <[a := {| stamp := t; exit_status := code |}]>
                              (checkpoints w) |} |}.

(** Modelled from the spec: a run has ended when the controller can take
    no transition of section 4.4 any more. *)
Definition ended (c : config) : Prop := ∀ c', ¬ step c c'.

End Controller.

(** Modelled from the spec: the shipped stage entries read as stages of
    section 3.  An entry of [stages] holds a command and no input, output
    or dependency declaration; the resource fields are the shipped
    defaults. *)
Definition of_entry (entry : pydict) : Stage :=
  {| command := match entry !! "command" with
                | Some (PyStr c) => c
                | _ => ""
                end;
     inputs := []; outputs := []; dependencies := [];
     distributed := true; walltime := "6:00:00"; memInGB := 16;
     queue := "WitsLong"; modules := ["gwaspipe"] |}.

(** Modelled from the spec: the registry of the shipped [stages]. *)
Definition shipped_registry : gmap string Stage :=
  of_entry <$> StagesConfig.stages.

End Design.

(** ** The specification's wording, for comparison with the code *)

Module ISO8601.

Definition is_digit (c : ascii) : bool :=
  (48 <=? nat_of_ascii c)%nat && (nat_of_ascii c <=? 57)%nat.

(** [s] starts with text of the shape [pat], in which ["d"] stands for
    one decimal digit and every other character for itself. *)
Fixpoint shaped (pat s : string) : bool :=
  match pat, s with
  | EmptyString, _ => true
  | String p pat', String c s' =>
      (if decide (p = "d"%char) then is_digit c
       else if decide (p = c) then true else false)
      && shaped pat' s'
  | String _ _, EmptyString => false
  end.

(** A combined date and time of ISO 8601: calendar date, the designator
    [T], time of day, in the extended or in the basic format.  What may
    follow the seconds (a decimal fraction, a zone designator) is not
    looked at. *)
Definition timestamp (s : string) : bool :=
  shaped "dddd-dd-ddTdd:dd:dd" s || shaped "ddddddddTdddddd" s.

End ISO8601.

(** The pipeline-level option table of specification section 6: a name and
    what its value has to be. *)
Module Options.

Definition any (v : pyval) : bool := true.

Definition one_of (names : list string) (v : pyval) : bool :=
  match v with
  | PyStr s => bool_decide (s ∈ names)
  | _ => false
  end.

Definition int_from (lo : Z) (v : pyval) : bool :=
  match v with
  | PyInt z => bool_decide (lo ≤ z)%Z
  | _ => false
  end.

Definition int_in (lo hi : Z) (v : pyval) : bool :=
  match v with
  | PyInt z => bool_decide (lo ≤ z ≤ hi)%Z
  | _ => false
  end.

Definition is_name (v : pyval) : bool :=
  match v with
  | PyStr _ => true
  | _ => false
  end.

Definition names (v : pyval) : bool :=
  match v with
  | PyList l => forallb is_name l
  | _ => false
  end.

Definition boolean (v : pyval) : bool :=
  match v with
  | PyBool _ => true
  | _ => false
  end.

Definition a_list (v : pyval) : bool :=
  match v with
  | PyList _ => true
  | _ => false
  end.

(** The table with the verbosity level under the name [level]. *)
Definition table (level : string) : list (string * (pyval → bool)) :=
  [ ("logDir", any);
    ("logFile", any);
    ("style", one_of ["flowchart"; "print"; "run"; "touchfiles"]);
    ("procs", int_from 1);
    (level, int_in 0 2);
    ("end", names);
    ("force", names);
    ("rebuild", one_of ["fromstart"; "fromend"]);
    ("restrict_samples", boolean);
    ("allowed_samples", a_list) ].

(** As the specification writes it. *)
Definition spec_table := table "verbosity".

(** As the shipped dictionary writes it. *)
Definition code_table := table "verbose".

(** [d] has exactly the options of [t], each with an admissible value. *)
Definition conforms (t : list (string * (pyval → bool))) (d : pydict) : Prop :=
  dom d = list_to_set t.*1 ∧
  Forall (λ entry, ∃ v, d !! entry.1 = Some v ∧ entry.2 v = true) t.

End Options.

(** The stage names of a list value such as [pipeline['end']]. *)
Definition stage_names (v : pyval) : list string :=
  match v with
  | PyList l => omap (λ x, match x with PyStr s => Some s | _ => None end) l
  | _ => []
  end.

(** The names in [pipeline['end']]. *)
Definition end_targets (p : pydict) : list string :=
  match p !! "end" with
  | Some v => stage_names v
  | None => []
  end.

Import Quickstart.

(** The claimed layout of a run: a log subdirectory, a plots subdirectory
    and the start flag file are made. *)
Definition produces_layout (e : env) : Prop :=
  let tr := (run e).1 in
  (∃ l, pipeline e !! "logDir" = Some (PyStr l) ∧ l ∈ created_dirs tr) ∧
  (∃ dir, created_dirs tr !! 0%nat = Some dir ∧
          pipeline_quickstart_plots dir ∈ created_dirs tr) ∧
  "pipeline_quickstart.Start" ∈ created_files tr.

(** The claimed name of the project directory: project, pipeline name and
    an ISO 8601 timestamp. *)
Definition named_with_iso8601 (e : env) : Prop :=
  ∀ p dir,
    working_files e !! "projectname" = Some (PyStr p) →
    created_dirs (run e).1 !! 0%nat = Some dir →
    ∃ ts, ISO8601.timestamp ts = true ∧
          dir = OsPath.join (witsGWAS_PROJECTS_DIR e) [p]
                  +:+ "-pipeline_quickstart-" +:+ ts +:+ "/".

(** A filled-in configuration, for examples. *)
Definition demo_time : datetime :=
  {| year := 2015; month := 3; day := 4; hour := 5; minute := 6; second := 7 |}.

Definition demo : env :=
  {| working_files :=
       <["projectname" := PyStr "demo"]>
      (<["projectauthor" := PyStr "L. Magosi"]> ∅);
     pipeline := Config.pipeline "";
     witsGWAS_PROJECTS_DIR := "/projects";
     banner := "witsGWAS";
     now := demo_time;
     getcwd := "/projects/demo-pipeline_quickstart-2015-03-04_05-06-07" |}.

(** The banner: the five lines printed before anything is looked up. *)
Definition banner_lines (e : env) : list event :=
  [ Ev_print (banner e) [];
    Ev_print "(C) 2015 Lerato E. Magosi, Scott Hazelhurst" [];
    Ev_print "http://magosil86.github.io/witsGWAS/" [];
    Ev_print "witsGWAS v0.1.0 is licensed under the MIT license. See LICENSE.txt" [];
    Ev_print "----------------------------------------------------------------" [] ].

(** What [strftime('%Y-%m-%d_%H-%M-%S')] writes. *)
Definition stamp_of (t : datetime) : string :=
  zfill 4 (year t) +:+ "-" +:+ zfill 2 (month t) +:+ "-" +:+
  zfill 2 (day t) +:+ "_" +:+ zfill 2 (hour t) +:+ "-" +:+
  zfill 2 (minute t) +:+ "-" +:+ zfill 2 (second t).

Definition dir_of (e : env) (p : string) : string :=
  OsPath.join (witsGWAS_PROJECTS_DIR e) [p]
    +:+ "-pipeline_quickstart-" +:+ stamp_of (now e) +:+ "/".

(** The events up to the look-up of the project author. *)
Definition setup_events (e : env) (p : string) (l : pyval) : list event :=
  banner_lines e ++
  [ Ev_print "Current project directory %s" [PyStr (dir_of e p)];
    Ev_create_dir (dir_of e p);
    Ev_chdir (dir_of e p);
    Ev_getcwd;
    Ev_print "Current working directory %s" [PyStr (getcwd e)];
    Ev_create_dir (pipeline_quickstart_plots (dir_of e p));
    Ev_print "Starting project %s" [PyStr p];
    Ev_print "" [];
    Ev_print "Intermediate files and output will be stored in %s" [PyStr (dir_of e p)];
    Ev_print "Log dir is %s" [l] ].

(** The calls that touch the file system. *)
Definition touches_fs (ev : event) : bool :=
  match ev with
  | Ev_create_dir _ | Ev_chdir _ | Ev_create_emptyfile _ => true
  | Ev_print _ _ | Ev_getcwd => false
  end.

Definition fs_events (tr : list event) : list event :=
  filter (λ ev, touches_fs ev) tr.


Import Design.

(** A registry with a cycle: [a] needs [b] and [b] needs [a]. *)
Definition plain (deps outs : list string) : Stage :=
  {| command := ""; inputs := []; outputs := outs; dependencies := deps;
     distributed := true; walltime := "6:00:00"; memInGB := 16;
     queue := "WitsLong"; modules := ["gwaspipe"] |}.

Definition loop_registry : gmap string Stage :=
  <["a" := plain ["b"] []]> (<["b" := plain ["a"] []]> ∅).

(** The chain of the specification's scenario: task1, then task2, then
    task3, one output file each. *)
Definition chain_registry : gmap string Stage :=
  <["task1" := plain [] ["out1"]]>
 (<["task2" := plain ["task1"] ["out2"]]>
 (<["task3" := plain ["task2"] ["out3"]]> ∅)).

Definition nothing_yet : World := {| files := ∅; checkpoints := ∅ |}.

(** The chain, task1 done and task2 under way. *)
Definition chain_midway : config :=
  {| statuses :=
       <["task2" := RUNNING]>
      (<["task1" := SUCCEEDED]>
      (<["task1" := RUNNING]>
         (statuses (initial chain_registry ["task3"] nothing_yet))));
     world :=
       {| files := {[ "out1" := 1%Z ]};
          checkpoints := <["task1" := {| stamp := 1; exit_status := 0 |}]> ∅ |} |}.


(** The chain with every output in place and newer than its checkpoint. *)
Definition all_built : World :=
  {| files := <["out1" := 1%Z]> (<["out2" := 2%Z]> (<["out3" := 3%Z]> ∅));
     checkpoints :=
       <["task1" := {| stamp := 1; exit_status := 0 |}]>
      (<["task2" := {| stamp := 2; exit_status := 0 |}]>
      (<["task3" := {| stamp := 3; exit_status := 0 |}]> ∅)) |}.

Definition chain_task1_skipped : config :=
  {| statuses :=
       <["task1" := SKIPPED]>
         (statuses (initial chain_registry ["task3"] all_built));
     world := all_built |}.


(** Whoever has begun has all dependencies satisfied. *)
Definition ordered (reg : gmap string Stage) (σ : gmap string status) : Prop :=
  ∀ a st s, reg !! a = Some st → σ !! a = Some s → begun s →
            ∀ d, d ∈ dependencies st → satisfied (σ !! d).

(** Nothing has run: the world is the one of the start and every stage of
    the run is [PENDING] or [SKIPPED]. *)
Definition idle (reg : gmap string Stage) (targets : list string) (w : World)
    (c : config) : Prop :=
  world c = w ∧
  dom (statuses c) = scope reg targets ∧
  ∀ a s, statuses c !! a = Some s → s = PENDING ∨ s = SKIPPED.

(** ** What a first run has to leave behind *)

(** The file evidence of spec section 4.2 for one stage, written on the
    timestamps themselves: the stage declares an output, every declared
    output exists, is not older than any declared input (each of which
    exists) and not older than the stage's checkpoint. *)
Definition built (st : Stage) (ck : option Checkpoint) (fs : gmap string Z) : Prop :=
  outputs st ≠ [] ∧
  ∀ o, o ∈ outputs st →
    ∃ t_out, fs !! o = Some t_out ∧
      (∀ i, i ∈ inputs st → ∃ t_in, fs !! i = Some t_in ∧ (t_in ≤ t_out)%Z) ∧
      (∀ c, ck = Some c → (stamp c ≤ t_out)%Z).

(** The state after stage [a] has been started in [c] and has succeeded at
    time [t], leaving the files [fs]. *)
Definition after_success (a : string) (fs : gmap string Z) (t : Z)
    (c : config) : config :=
  {| statuses := <[a := SUCCEEDED]> (<[a := RUNNING]> (statuses c));
     world := {| files := fs;
                 checkpoints := <[a := {| stamp := t; exit_status := 0 |}]>
                                  (checkpoints (world c)) |} |}.

(** A first run of the chain: each stage runs in turn and writes its
    output at the time of its checkpoint. *)
Definition chain_done : config :=
  after_success "task3"
    (<["out1" := 1%Z]> (<["out2" := 2%Z]> (<["out3" := 3%Z]> ∅))) 3
    (after_success "task2" (<["out1" := 1%Z]> (<["out2" := 2%Z]> ∅)) 2
       (after_success "task1" (<["out1" := 1%Z]> ∅) 1
          (initial chain_registry ["task3"] nothing_yet))).

(** The second run of the chain, from the world the first one left: each
    stage skipped in turn. *)
Definition chain_rerun : config :=
  {| statuses :=
       <["task3" := SKIPPED]>
         (<["task2" := SKIPPED]>
            (<["task1" := SKIPPED]>
               (statuses (initial chain_registry ["task3"] (world chain_done)))));
     world := world chain_done |}.

(** One stage with one output, for the runs that do start again. *)
Definition solo_registry : gmap string Stage :=
  <["task1" := plain [] ["out1"]]> ∅.

(** A first run of the single stage that succeeds without writing its
    output. *)
Definition solo_unwritten : config :=
  after_success "task1" ∅ 1 (initial solo_registry ["task1"] nothing_yet).

(** ** Further readings of the start-up script *)

(** The value of a decimal digit character. *)
Definition digit_value (c : ascii) : nat := nat_of_ascii c - 48.

(** The character of a decimal digit. *)
Definition digit_char (r : nat) : ascii := ascii_of_nat (48 + r).

(** A two-digit and a four-digit field read back as a number. *)
Definition two_digits (s : string) : option nat :=
  match s with
  | String a (String b EmptyString) =>
      if ISO8601.is_digit a && ISO8601.is_digit b
      then Some (10 * digit_value a + digit_value b)
      else None
  | _ => None
  end.

Definition four_digits (s : string) : option nat :=
  match s with
  | String a (String b (String c (String d EmptyString))) =>
      if ISO8601.is_digit a && ISO8601.is_digit b
         && ISO8601.is_digit c && ISO8601.is_digit d
      then Some (1000 * digit_value a + 100 * digit_value b
                 + 10 * digit_value c + digit_value d)
      else None
  | _ => None
  end.

(** The field ranges of a [datetime.datetime], from the year on which
    [strftime] accepts it up to year 9999 ([100 * 100] is 10000). *)
Definition in_range (t : datetime) : Prop :=
  (1900 ≤ year t < 100 * 100)%nat ∧ (1 ≤ month t ≤ 12)%nat ∧
  (1 ≤ day t ≤ 31)%nat ∧ (hour t ≤ 23)%nat ∧
  (minute t ≤ 59)%nat ∧ (second t ≤ 59)%nat.

(** What lines 88-89 put after the joined path: the pipeline name, the
    stamp and the closing [/]. *)
Definition dir_tail (t : datetime) : string :=
  "-pipeline_quickstart-" +:+ stamp_of t +:+ "/".

(** Configurations for examples: no author, a number for a name, no
    [logDir], a relative projects directory. *)
Definition demo_no_author : env :=
  {| working_files := <["projectname" := PyStr "demo"]> ∅;
     pipeline := Config.pipeline "";
     witsGWAS_PROJECTS_DIR := "/projects";
     banner := "witsGWAS";
     now := demo_time;
     getcwd := "/projects/demo-pipeline_quickstart-2015-03-04_05-06-07" |}.

Definition demo_numbered : env :=
  {| working_files := <["projectname" := PyInt 7]> ∅;
     pipeline := Config.pipeline "";
     witsGWAS_PROJECTS_DIR := "/projects";
     banner := "witsGWAS";
     now := demo_time;
     getcwd := "/" |}.

Definition demo_no_logdir : env :=
  {| working_files := working_files demo;
     pipeline := ∅;
     witsGWAS_PROJECTS_DIR := "/projects";
     banner := "witsGWAS";
     now := demo_time;
     getcwd := "/" |}.

Definition demo_relative : env :=
  {| working_files := working_files demo;
     pipeline := Config.pipeline "";
     witsGWAS_PROJECTS_DIR := "projects";
     banner := "witsGWAS";
     now := demo_time;
     getcwd := "/home/user/projects/demo-pipeline_quickstart-2015-03-04_05-06-07" |}.

Definition demo_later : env :=
  {| working_files := working_files demo;
     pipeline := Config.pipeline "";
     witsGWAS_PROJECTS_DIR := "/projects";
     banner := "witsGWAS";
     now := {| year := 2015; month := 3; day := 4;
               hour := 5; minute := 6; second := 8 |};
     getcwd := "/projects/demo-pipeline_quickstart-2015-03-04_05-06-08" |}.

(** * Theorems *)


(** ** Strings and paths *)

Lemma append_length (a b : string) :
  String.length (a +:+ b) = (String.length a + String.length b)%nat.
Proof. induction a as [|c a IH]; simpl; [reflexivity | now rewrite IH]. Qed.

Lemma append_cancel_r (a b c : string) : a +:+ c = b +:+ c → a = b.
Proof.
  revert b. induction a as [|x a IH]; intros [|y b] H; simpl in H.
  - reflexivity.
  - apply (f_equal String.length) in H.
    rewrite !append_length in H. simpl in H. lia.
  - apply (f_equal String.length) in H.
    rewrite !append_length in H. simpl in H. lia.
  - injection H as -> H. f_equal. now apply IH.
Qed.

Lemma append_assoc (a b c : string) : (a +:+ b) +:+ c = a +:+ (b +:+ c).
Proof.
  induction a as [|x a IH]; [reflexivity |].
  change (String x ((a +:+ b) +:+ c) = String x (a +:+ (b +:+ c))).
  by rewrite IH.
Qed.

(** [os.path.join(a, b)] always ends with [b]. *)
Lemma join_ends_with (a b : string) : ∃ parent, OsPath.join a [b] = parent +:+ b.
Proof.
  unfold OsPath.join, OsPath.join_step. cbn [fold_left].
  destruct (OsPath.startswith_slash b); [by exists "" |].
  destruct (decide (a = "")); [by exists a |].
  destruct (OsPath.endswith_slash a); [by exists a |].
  exists (a +:+ "/"). symmetry. apply append_assoc.
Qed.

Example join_relative : OsPath.join "/projects" ["demo"] = "/projects/demo".
Proof. reflexivity. Qed.

Example join_absolute : OsPath.join "/projects" ["/tmp/demo"] = "/tmp/demo".
Proof. reflexivity. Qed.

Example join_after_slash : OsPath.join "/projects/" ["demo"] = "/projects/demo".
Proof. reflexivity. Qed.

Example strftime_demo :
  strftime demo_time [] = ([], inr "2015-03-04_05-06-07").
Proof. reflexivity. Qed.

Example iso8601_extended : ISO8601.timestamp "2015-03-04T05:06:07" = true.
Proof. reflexivity. Qed.

Example iso8601_basic : ISO8601.timestamp "20150304T050607Z" = true.
Proof. reflexivity. Qed.

(** ** The start-up script *)

Lemma current_project_dir_ok (e : env) (p : string) (tr : list event) :
  working_files e !! "projectname" = Some (PyStr p) →
  (1900 ≤ year (now e))%nat →
  CURRENT_PROJECT_DIR e tr = (tr, inr (dir_of e p)).
Proof.
  intros Hp Hy. unfold CURRENT_PROJECT_DIR, getitem, strftime.
  rewrite Hp. destruct (Nat.ltb_spec (year (now e)) 1900) as [Hlt|_]; [lia |].
  reflexivity.
Qed.

Lemma run_complete (e : env) (p : string) (l a : pyval) :
  working_files e !! "projectname" = Some (PyStr p) →
  working_files e !! "projectauthor" = Some a →
  pipeline e !! "logDir" = Some l →
  (1900 ≤ year (now e))%nat →
  run e = (setup_events e p l ++
           [ Ev_print "Project author is %s" [a];
             Ev_print "" [];
             Ev_create_emptyfile "pipeline_quickstart.Start" ],
           inr tt).
Proof.
  intros Hp Ha Hl Hy. unfold run, script.
  cbv [mbind M_bind bind]. unfold getitem at 1. rewrite Hl. cbn [ret emit app].
  rewrite (current_project_dir_ok e p _ Hp Hy).
  unfold getitem. rewrite Hp, Ha. reflexivity.
Qed.

Lemma run_without_author (e : env) (p : string) (l : pyval) :
  working_files e !! "projectname" = Some (PyStr p) →
  working_files e !! "projectauthor" = None →
  pipeline e !! "logDir" = Some l →
  (1900 ≤ year (now e))%nat →
  run e = (setup_events e p l, inl (KeyError "projectauthor")).
Proof.
  intros Hp Ha Hl Hy. unfold run, script.
  cbv [mbind M_bind bind]. unfold getitem at 1. rewrite Hl. cbn [ret emit app].
  rewrite (current_project_dir_ok e p _ Hp Hy).
  unfold getitem. rewrite Hp, Ha. reflexivity.
Qed.

Lemma run_without_project (e : env) (l : pyval) :
  working_files e !! "projectname" = None →
  pipeline e !! "logDir" = Some l →
  run e = (banner_lines e, inl (KeyError "projectname")).
Proof.
  intros Hp Hl. unfold run, script.
  cbv [mbind M_bind bind]. unfold getitem at 1. rewrite Hl. cbn [ret emit app].
  unfold CURRENT_PROJECT_DIR. cbv [mbind M_bind bind]. unfold getitem.
  rewrite Hp. reflexivity.
Qed.

Example run_demo_dirs :
  created_dirs (run demo).1 =
  [ "/projects/demo-pipeline_quickstart-2015-03-04_05-06-07/";
    "/projects/demo-pipeline_quickstart-2015-03-04_05-06-07/pipeline_quickstart_plots/" ].
Proof. reflexivity. Qed.

Example run_demo_logdir :
  pipeline demo !! "logDir" = Some (PyStr "log_quickstart").
Proof. reflexivity. Qed.

(** C1, as the specification words it, fails: the directory made for the
    project "demo" on 2015-03-04 at 05:06:07 carries the stamp
    2015-03-04_05-06-07, which is no ISO 8601 timestamp. *)
Lemma project_dir_stamp_not_iso8601 : ¬ named_with_iso8601 demo.
Proof.
  intros H.
  destruct (H "demo" "/projects/demo-pipeline_quickstart-2015-03-04_05-06-07/"
              eq_refl eq_refl) as (ts & Hts & Heq).
  change ("/projects/demo-pipeline_quickstart-" +:+ "2015-03-04_05-06-07" +:+ "/"
          = "/projects/demo-pipeline_quickstart-" +:+ ts +:+ "/") in Heq.
  apply (inj (String.app _)) in Heq.
  apply append_cancel_r in Heq. subst ts. discriminate Hts.
Qed.

(** C1 (amended): whenever the configuration names the project, the first
    directory the script makes is
    [os.path.join(SC.witsGWAS_PROJECTS_DIR, projectname)], then
    [-pipeline_quickstart-], then the start time written as
    [%Y-%m-%d_%H-%M-%S], then [/]; its name ends with
    [<projectname>-pipeline_quickstart-<stamp>/]. *)
Theorem project_dir_name (e : env) (p : string) :
  working_files e !! "projectname" = Some (PyStr p) →
  is_Some (pipeline e !! "logDir") →
  (1900 ≤ year (now e))%nat →
  CURRENT_PROJECT_DIR e [] = ([], inr (dir_of e p)) ∧
  created_dirs (run e).1 !! 0%nat = Some (dir_of e p) ∧
  ∃ parent,
    dir_of e p = parent +:+ p +:+ "-pipeline_quickstart-" +:+
                 stamp_of (now e) +:+ "/".
Proof.
  intros Hp [l Hl] Hy. split; [by apply current_project_dir_ok |]. split.
  - destruct (working_files e !! "projectauthor") as [a|] eqn:Ha.
    + by rewrite (run_complete e p l a).
    + by rewrite (run_without_author e p l).
  - destruct (join_ends_with (witsGWAS_PROJECTS_DIR e) p) as [parent Hj].
    exists parent. unfold dir_of. rewrite Hj. apply append_assoc.
Qed.

Lemma project_dir_name_demo :
  CURRENT_PROJECT_DIR demo [] =
    ([], inr "/projects/demo-pipeline_quickstart-2015-03-04_05-06-07/") ∧
  created_dirs (run demo).1 !! 0%nat =
    Some "/projects/demo-pipeline_quickstart-2015-03-04_05-06-07/" ∧
  ∃ parent,
    dir_of demo "demo" = parent +:+ "demo" +:+ "-pipeline_quickstart-" +:+
                         stamp_of (now demo) +:+ "/".
Proof.
  apply (project_dir_name demo "demo").
  - reflexivity.
  - eexists. reflexivity.
  - simpl. lia.
Defined.

(** C2: with the configuration as shipped, [working_files] is empty and
    the script stops at [working_files['projectname']] with a [KeyError],
    after the banner and before any directory or file is made. *)
Theorem shipped_startup_fails (d projects b : string) (t : datetime) (cwd : string) :
  Config.working_files = ∅ ∧
  run (shipped d projects b t cwd) =
    (banner_lines (shipped d projects b t cwd), inl (KeyError "projectname")) ∧
  created_dirs (run (shipped d projects b t cwd)).1 = [] ∧
  created_files (run (shipped d projects b t cwd)).1 = [].
Proof.
  split; [reflexivity |].
  assert (run (shipped d projects b t cwd) =
            (banner_lines (shipped d projects b t cwd),
             inl (KeyError "projectname"))) as Hrun.
  { apply (run_without_project _
             (PyStr (OsPath.join d ["log_quickstart"]))).
    - apply lookup_empty.
    - apply lookup_insert_eq. }
  split; [exact Hrun |]. rewrite Hrun. split; reflexivity.
Qed.

(** C3, as the specification words it, fails: the run of a filled-in
    configuration makes the project and the plots directories and the flag
    file, and no log directory. *)
Lemma no_log_directory_made : ¬ produces_layout demo.
Proof.
  intros [(l & Hl & Hin) _].
  change (Some (PyStr "log_quickstart") = Some (PyStr l)) in Hl.
  injection Hl as <-.
  change (created_dirs (run demo).1) with
    [ "/projects/demo-pipeline_quickstart-2015-03-04_05-06-07/";
      "/projects/demo-pipeline_quickstart-2015-03-04_05-06-07/pipeline_quickstart_plots/" ]
    in Hin.
  repeat (apply elem_of_cons in Hin as [Heq | Hin]; [discriminate Heq |]).
  by apply elem_of_nil in Hin.
Qed.

(** C3 (amended): a run whose configuration names the project and its
    author ends normally, and what it does to the file system is, in this
    order: make the project directory, change into it, make the plots
    directory, make the empty file [pipeline_quickstart.Start].  The log
    directory is printed and not made. *)
Theorem run_layout (e : env) (p : string) (a l : pyval) :
  working_files e !! "projectname" = Some (PyStr p) →
  working_files e !! "projectauthor" = Some a →
  pipeline e !! "logDir" = Some l →
  (1900 ≤ year (now e))%nat →
  (run e).2 = inr tt ∧
  fs_events (run e).1 =
    [ Ev_create_dir (dir_of e p);
      Ev_chdir (dir_of e p);
      Ev_create_dir (pipeline_quickstart_plots (dir_of e p));
      Ev_create_emptyfile "pipeline_quickstart.Start" ] ∧
  created_dirs (run e).1 =
    [ dir_of e p; pipeline_quickstart_plots (dir_of e p) ] ∧
  created_files (run e).1 = [ "pipeline_quickstart.Start" ] ∧
  Ev_print "Log dir is %s" [l] ∈ (run e).1.
Proof.
  intros Hp Ha Hl Hy. rewrite (run_complete e p l a Hp Ha Hl Hy).
  repeat split. cbn [fst setup_events banner_lines app].
  do 14 apply list_elem_of_further. apply list_elem_of_here.
Qed.

Lemma run_layout_demo :
  (run demo).2 = inr tt ∧
  fs_events (run demo).1 =
    [ Ev_create_dir (dir_of demo "demo");
      Ev_chdir (dir_of demo "demo");
      Ev_create_dir (pipeline_quickstart_plots (dir_of demo "demo"));
      Ev_create_emptyfile "pipeline_quickstart.Start" ] ∧
  created_dirs (run demo).1 =
    [ dir_of demo "demo"; pipeline_quickstart_plots (dir_of demo "demo") ] ∧
  created_files (run demo).1 = [ "pipeline_quickstart.Start" ] ∧
  Ev_print "Log dir is %s" [PyStr "log_quickstart"] ∈ (run demo).1.
Proof.
  apply (run_layout demo "demo" (PyStr "L. Magosi") (PyStr "log_quickstart")).
  - reflexivity.
  - reflexivity.
  - reflexivity.
  - simpl. lia.
Defined.

(** ** The configuration dictionaries *)

Lemma pipeline_keys (d : string) :
  dom (Config.pipeline d) = list_to_set Options.code_table.*1.
Proof.
  unfold Config.pipeline. rewrite !dom_insert_L, dom_empty_L.
  apply set_eq. intros x. cbn.
  rewrite !elem_of_union, !elem_of_singleton, elem_of_empty. tauto.
Qed.

(** C4, as the specification words it, fails: the specification's table has
    an option [verbosity], and the shipped dictionary has none of that
    name. *)
Lemma pipeline_has_no_verbosity :
  ¬ Options.conforms Options.spec_table (Config.pipeline "").
Proof.
  intros [_ Hall].
  apply Forall_lookup with (i := 4%nat) (x := ("verbosity", Options.int_in 0 2))
    in Hall; [| reflexivity].
  destruct Hall as (v & Hv & _). discriminate Hv.
Qed.

(** C4 (amended): the shipped [pipeline] dictionary has exactly the keys
    logDir, logFile, style, procs, verbose, end, force, rebuild,
    restrict_samples and allowed_samples; style is one of flowchart, print,
    run, touchfiles; procs is an integer at least 1; verbose is 0, 1 or 2;
    end and force are lists of names; rebuild is fromstart or fromend;
    restrict_samples is a boolean and allowed_samples a list.  The level
    of verbosity is kept under the key [verbose]. *)
Theorem pipeline_options_conform (d : string) :
  Options.conforms Options.code_table (Config.pipeline d) ∧
  Config.pipeline d !! "verbose" = Some (PyInt 1) ∧
  Config.pipeline d !! "verbosity" = None.
Proof.
  split; [| split; reflexivity].
  split; [apply pipeline_keys |].
  unfold Options.code_table, Options.table.
  repeat (apply Forall_cons; split; [eexists; split; reflexivity |]).
  apply Forall_nil_2.
Qed.

(** C9: in the shipped configuration the [end] list is
    [['quickstart_end_task']], the stages are exactly task1, task2 and
    task3, and no name of the [end] list is a stage. *)
Theorem end_targets_are_no_stages (d : string) :
  end_targets (Config.pipeline d) = ["quickstart_end_task"] ∧
  dom StagesConfig.stages = {[ "task1"; "task2"; "task3" ]} ∧
  Forall (λ n, StagesConfig.stages !! n = None) (end_targets (Config.pipeline d)).
Proof.
  split; [reflexivity |]. split.
  - unfold StagesConfig.stages. rewrite !dom_insert_L, dom_empty_L.
    apply set_eq. intros x. rewrite !elem_of_union, !elem_of_singleton,
      elem_of_empty. tauto.
  - apply Forall_cons; split; [reflexivity | apply Forall_nil_2].
Qed.

Lemma stages_lookup (name : string) (entry : pydict) :
  StagesConfig.stages !! name = Some entry →
  name ∈ ["task1"; "task2"; "task3"] ∧ entry = <["command" := PyStr ""]> ∅.
Proof.
  unfold StagesConfig.stages. intros H.
  repeat (apply lookup_insert_Some in H as [[<- <-] | [_ H]];
          [split; [rewrite !elem_of_cons; tauto | reflexivity] |]).
  by rewrite lookup_empty in H.
Qed.

(** C10: every entry of the shipped [stages] has a [command], the empty
    string, and declares none of the options of [stageDefaults]; so each
    stage has the default distributed True, queue 'WitsLong', walltime
    '6:00:00', memInGB 16 and modules ['gwaspipe']. *)
Theorem stages_inherit_defaults (name : string) (entry : pydict) :
  StagesConfig.stages !! name = Some entry →
  entry !! "command" = Some (PyStr "") ∧
  (∀ opt, is_Some (StagesConfig.stageDefaults !! opt) → entry !! opt = None) ∧
  (∀ opt, is_Some (StagesConfig.stageDefaults !! opt) →
          StagesConfig.stageOption entry opt = StagesConfig.stageDefaults !! opt) ∧
  StagesConfig.stageOption entry "distributed" = Some (PyBool true) ∧
  StagesConfig.stageOption entry "queue" = Some (PyStr "WitsLong") ∧
  StagesConfig.stageOption entry "walltime" = Some (PyStr "6:00:00") ∧
  StagesConfig.stageOption entry "memInGB" = Some (PyInt 16) ∧
  StagesConfig.stageOption entry "modules" = Some (PyList [PyStr "gwaspipe"]).
Proof.
  intros H. apply stages_lookup in H as [_ ->].
  assert (Hnone : ∀ opt, is_Some (StagesConfig.stageDefaults !! opt) →
                         (<["command" := PyStr ""]> ∅ : pydict) !! opt = None).
  { intros opt Hopt. apply lookup_insert_None. split; [apply lookup_empty |].
    intros <-. by destruct Hopt as [v Hv]. }
  split; [reflexivity |]. split; [exact Hnone |]. split.
  - intros opt Hopt. unfold StagesConfig.stageOption. by rewrite (Hnone opt Hopt).
  - repeat split.
Qed.

Lemma stages_inherit_defaults_task2 :
  let entry : pydict := <["command" := PyStr ""]> ∅ in
  entry !! "command" = Some (PyStr "") ∧
  (∀ opt, is_Some (StagesConfig.stageDefaults !! opt) → entry !! opt = None) ∧
  (∀ opt, is_Some (StagesConfig.stageDefaults !! opt) →
          StagesConfig.stageOption entry opt = StagesConfig.stageDefaults !! opt) ∧
  StagesConfig.stageOption entry "distributed" = Some (PyBool true) ∧
  StagesConfig.stageOption entry "queue" = Some (PyStr "WitsLong") ∧
  StagesConfig.stageOption entry "walltime" = Some (PyStr "6:00:00") ∧
  StagesConfig.stageOption entry "memInGB" = Some (PyInt 16) ∧
  StagesConfig.stageOption entry "modules" = Some (PyList [PyStr "gwaspipe"]).
Proof.
  apply (stages_inherit_defaults "task2"). reflexivity.
Defined.

(** ** Stage Registry: validation *)


Section Reach.

Variable reg : gmap string Stage.

Lemma elem_of_deps_of (a b : string) : b ∈ deps_of reg a ↔ dep reg a b.
Proof.
  unfold deps_of, dep. destruct (reg !! a) as [st|].
  - rewrite elem_of_list_to_set. split.
    + intros Hb. by exists st.
    + intros (st' & [= <-] & Hb). exact Hb.
  - rewrite elem_of_empty. split; [tauto |]. by intros (st & Hst & _).
Qed.

Lemma elem_of_expand (R : gset string) (b : string) :
  b ∈ expand reg R ↔ b ∈ R ∨ ∃ x, x ∈ R ∧ dep reg x b.
Proof.
  unfold expand. rewrite elem_of_union, elem_of_set_bind.
  setoid_rewrite elem_of_deps_of. naive_solver.
Qed.

Lemma expand_incl (R : gset string) : R ⊆ expand reg R.
Proof. intros b Hb. apply elem_of_expand. by left. Qed.

Lemma dep_in_nodes (a b : string) : dep reg a b → b ∈ nodes reg.
Proof.
  intros Hd. unfold nodes. apply elem_of_union_r, elem_of_set_bind.
  exists a. split; [| by apply elem_of_deps_of].
  destruct Hd as (st & Hst & _). apply elem_of_dom. by exists st.
Qed.

Lemma tc_dep_last (a b : string) : tc (dep reg) a b → ∃ x, dep reg x b.
Proof. induction 1 as [x y Hxy | x y z _ _ IH]; [by exists x | exact IH]. Qed.

Lemma tc_dep_first (a b : string) : tc (dep reg) a b → is_Some (reg !! a).
Proof.
  intros H. destruct H as [x y (st & Hst & _) | x y z (st & Hst & _) _];
    by exists st.
Qed.

Lemma iter_sound (a : string) (k : nat) (b : string) :
  b ∈ Nat.iter k (expand reg) (deps_of reg a) → tc (dep reg) a b.
Proof.
  revert b. induction k as [|k IH]; intros b; simpl.
  - intros Hb. apply tc_once. by apply elem_of_deps_of.
  - rewrite elem_of_expand. intros [Hb | (x & Hx & Hxb)]; [by apply IH |].
    eapply tc_r; [by apply IH | exact Hxb].
Qed.

Lemma iter_in_nodes (a : string) (k : nat) :
  Nat.iter k (expand reg) (deps_of reg a) ⊆ nodes reg.
Proof.
  intros b Hb. apply iter_sound, tc_dep_last in Hb as [x Hx].
  by eapply dep_in_nodes.
Qed.

(** Each round either changes nothing or adds a stage. *)
Lemma iter_fixed_or_grown (a : string) (k : nat) :
  let R := Nat.iter k (expand reg) (deps_of reg a) in
  expand reg R = R ∨ (k ≤ size R)%nat.
Proof.
  induction k as [|k IH]; simpl; [right; lia |].
  simpl in IH. set (R := Nat.iter k (expand reg) (deps_of reg a)) in *.
  destruct IH as [Hfix | Hsize].
  - left. by rewrite !Hfix.
  - destruct (decide (expand reg R = R)) as [Hfix | Hne].
    + left. by rewrite !Hfix.
    + right. assert (R ⊂ expand reg R) as Hlt.
      { split; [apply expand_incl |]. intros Hsub. apply Hne.
        apply set_eq. intros x. split; [apply Hsub | apply expand_incl]. }
      apply subset_size in Hlt. lia.
Qed.

Lemma reach_closed (a : string) : expand reg (reach reg a) = reach reg a.
Proof.
  unfold reach.
  destruct (iter_fixed_or_grown a (size (nodes reg))) as [Hfix | Hsize];
    [exact Hfix |].
  set (R := Nat.iter (size (nodes reg)) (expand reg) (deps_of reg a)) in *.
  assert (R = nodes reg) as HR.
  { apply set_subseteq_size_eq; [apply iter_in_nodes | exact Hsize]. }
  apply set_eq. intros b. split; [| apply expand_incl].
  rewrite elem_of_expand. intros [Hb | (x & _ & Hxb)]; [exact Hb |].
  rewrite HR. by eapply dep_in_nodes.
Qed.

Lemma deps_in_reach (a b : string) : dep reg a b → b ∈ reach reg a.
Proof.
  intros Hd. unfold reach.
  induction (size (nodes reg)) as [|k IH]; simpl.
  - by apply elem_of_deps_of.
  - by apply expand_incl.
Qed.

(** [reach] is the transitive closure of the dependency edges. *)
Lemma elem_of_reach (a b : string) : b ∈ reach reg a ↔ tc (dep reg) a b.
Proof.
  split; [apply iter_sound |].
  intros Htc.
  assert (∀ x, x = a ∨ x ∈ reach reg a → tc (dep reg) x b → b ∈ reach reg a)
    as Hgen; [| by apply (Hgen a); [left |]].
  clear Htc. intros x Hx Htc. induction Htc as [x y Hxy | x y z Hxy _ IH].
  - destruct Hx as [-> | Hx]; [by apply deps_in_reach |].
    rewrite <- reach_closed. apply elem_of_expand. right. by exists x.
  - apply IH. right. destruct Hx as [-> | Hx]; [by apply deps_in_reach |].
    rewrite <- reach_closed. apply elem_of_expand. right. by exists x.
Qed.

Lemma elem_of_unknown_refs (a d : string) :
  (a, d) ∈ unknown_refs reg ↔ dep reg a d ∧ reg !! d = None.
Proof.
  unfold unknown_refs, dep. rewrite list_elem_of_bind. split.
  - intros ([a' st] & Hin & Hst). apply elem_of_map_to_list in Hst.
    apply list_elem_of_bind in Hin as (d' & Hin & Hd').
    apply list_elem_of_singleton in Hin. injection Hin as -> ->.
    apply list_elem_of_filter in Hd' as [Hnone Hd']. eauto.
  - intros [(st & Hst & Hd) Hnone]. exists (a, st).
    split; [| by apply elem_of_map_to_list].
    apply list_elem_of_bind. exists d. split; [apply list_elem_of_here |].
    by apply list_elem_of_filter.
Qed.

Lemma elem_of_on_cycle (a : string) : a ∈ on_cycle reg ↔ tc (dep reg) a a.
Proof.
  unfold on_cycle. rewrite list_elem_of_filter, elem_of_elements, elem_of_reach.
  split; [by intros [? _] |]. intros Htc. split; [exact Htc |].
  apply elem_of_dom. by eapply tc_dep_first.
Qed.

Lemma validate_ok :
  validate reg = inr tt ↔ unknown_refs reg = [] ∧ on_cycle reg = [].
Proof.
  unfold validate.
  destruct (unknown_refs reg), (on_cycle reg);
    (split; [intros Hv | intros [Hu Hc]]); try discriminate; done.
Qed.

Lemma validate_error (err : ConfigurationError) :
  validate reg = inl err →
  err = {| unknown_references := unknown_refs reg; cyclic := on_cycle reg |}.
Proof.
  unfold validate.
  destruct (unknown_refs reg), (on_cycle reg); intros Hv;
    try discriminate; by injection Hv as <-.
Qed.

End Reach.

Example validate_loop :
  validate loop_registry =
  inl {| unknown_references := []; cyclic := ["a"; "b"] |}.
Proof. vm_compute. reflexivity. Qed.

Example validate_shipped : validate shipped_registry = inr tt.
Proof. vm_compute. reflexivity. Qed.

Lemma shipped_registry_no_dep (a b : string) : ¬ dep shipped_registry a b.
Proof.
  intros (st & Hst & Hb). unfold shipped_registry in Hst.
  apply lookup_fmap_Some in Hst as (entry & <- & _).
  by apply elem_of_nil in Hb.
Qed.

(** C5: a registry all of whose dependency names exist and whose
    dependency graph has no cycle is accepted; a registry whose graph has a
    cycle is refused with a [ConfigurationError] that names a stage, and
    only stages, on a cycle, and the controller then starts no run. *)
Theorem registry_validation (reg : gmap string Stage) :
  ((∀ a b, dep reg a b → is_Some (reg !! b)) →
   (∀ a, ¬ tc (dep reg) a a) →
   validate reg = inr tt) ∧
  ((∃ a, tc (dep reg) a a) →
   ∃ err, validate reg = inl err ∧
          (∃ s, s ∈ cyclic err) ∧
          (∀ s, s ∈ cyclic err → tc (dep reg) s s) ∧
          ∀ targets w, start reg targets w = inl err).
Proof.
  split.
  - intros Hknown Hacyclic. apply validate_ok. split.
    + destruct (unknown_refs reg) as [|[a d] l] eqn:Hu; [reflexivity |].
      assert ((a, d) ∈ unknown_refs reg) as Hin by (rewrite Hu; left).
      apply elem_of_unknown_refs in Hin as [Hd Hnone].
      apply Hknown in Hd as [st Hst]. congruence.
    + destruct (on_cycle reg) as [|a l] eqn:Hc; [reflexivity |].
      assert (a ∈ on_cycle reg) as Hin by (rewrite Hc; left).
      apply elem_of_on_cycle in Hin. by apply Hacyclic in Hin.
  - intros [a Ha]. apply elem_of_on_cycle in Ha.
    destruct (validate reg) as [err | []] eqn:Hv.
    + exists err. split; [reflexivity |].
      pose proof (validate_error reg err Hv) as ->. simpl.
      split; [by exists a |]. split; [intros s; apply elem_of_on_cycle |].
      intros targets w. unfold start. by rewrite Hv.
    + apply validate_ok in Hv as [_ Hc]. rewrite Hc in Ha.
      by apply elem_of_nil in Ha.
Qed.

Lemma registry_validation_examples :
  validate shipped_registry = inr tt ∧
  ∃ err, validate loop_registry = inl err ∧
         (∃ s, s ∈ cyclic err) ∧
         (∀ s, s ∈ cyclic err → tc (dep loop_registry) s s) ∧
         ∀ targets w, start loop_registry targets w = inl err.
Proof.
  split.
  - apply (proj1 (registry_validation shipped_registry)).
    + intros a b H. by apply shipped_registry_no_dep in H.
    + intros a H. apply tc_dep_last in H as [x H].
      by apply shipped_registry_no_dep in H.
  - apply (proj2 (registry_validation loop_registry)).
    exists "a". apply tc_l with "b".
    + exists (plain ["b"] []). split; [reflexivity | left].
    + apply tc_once. exists (plain ["a"] []). split; [reflexivity | left].
Defined.

(** ** Staleness Resolver *)

Example stale_without_outputs (force : list string) (name : string)
    (ck : option Checkpoint) (fs : gmap string Z) :
  stale force name (plain [] []) ck fs = true.
Proof. unfold stale. simpl. apply orb_true_r. Qed.

Example fresh_output_up_to_date :
  stale [] "task1" (plain [] ["out"]) (Some {| stamp := 2; exit_status := 0 |})
        {[ "out" := 2%Z ]} = false.
Proof. reflexivity. Qed.

Lemma forced_stale (force : list string) (name : string) (st : Stage)
    (ck : option Checkpoint) (fs : gmap string Z) :
  name ∈ force → stale force name st ck fs = true.
Proof. intros Hin. unfold stale. by rewrite bool_decide_eq_true_2. Qed.

(** A forced stage is never skipped. *)
Lemma forced_not_skipped (reg : gmap string Stage) (force : list string)
    (procs : nat) (targets : list string) (w : World) (name : string)
    (c : config) :
  name ∈ force →
  rtc (step reg force procs) (initial reg targets w) c →
  statuses c !! name ≠ Some SKIPPED.
Proof.
  intros Hin Hsteps.
  apply (rtc_ind_r (R := step reg force procs)
           (λ c, statuses c !! name ≠ Some SKIPPED) (initial reg targets w));
    [| | exact Hsteps].
  - unfold initial. simpl. rewrite lookup_gset_to_gmap_Some.
    intros [_ H]. discriminate H.
  - intros c1 c2 _ Hstep IH.
    destruct Hstep as [a st σ w' _ _ _ _ _ | a st σ w' _ _ _ Hres
                      | a σ w' fs t _ | a σ w' fs t code _ _]; simpl in *;
      (destruct (decide (a = name)) as [-> | Hne];
       [rewrite lookup_insert_eq | by rewrite lookup_insert_ne]);
      try discriminate.
    unfold resolver in Hres. rewrite forced_stale in Hres by exact Hin.
    discriminate Hres.
Qed.

(** C6: a stage whose name is in the force set is reported stale, whatever
    the stage declares, whatever checkpoint it has and whatever the
    timestamps of the files are; the controller's resolver says so in every
    world, and no run ever skips the stage. *)
Theorem forced_is_stale (force : list string) (name : string) (st : Stage) :
  name ∈ force →
  (∀ ck fs, stale force name st ck fs = true) ∧
  (∀ w, resolver force name st w = true) ∧
  (∀ reg procs targets w c,
     rtc (step reg force procs) (initial reg targets w) c →
     statuses c !! name ≠ Some SKIPPED).
Proof.
  intros Hin. split; [| split].
  - intros ck fs. by apply forced_stale.
  - intros w. by apply forced_stale.
  - intros reg procs targets w c. by apply forced_not_skipped.
Qed.

Lemma forced_is_stale_example :
  (∀ ck fs, stale ["task2"] "task2" (plain [] ["out"]) ck fs = true) ∧
  (∀ w, resolver ["task2"] "task2" (plain [] ["out"]) w = true) ∧
  (∀ reg procs targets w c,
     rtc (step reg ["task2"] procs) (initial reg targets w) c →
     statuses c !! "task2" ≠ Some SKIPPED).
Proof.
  apply (forced_is_stale ["task2"] "task2" (plain [] ["out"])).
  apply list_elem_of_here.
Defined.

(** ** Run Controller *)

Section Runs.

Variable reg : gmap string Stage.
Variable force : list string.
Variable procs : nat.

Lemma satisfied_insert (σ : gmap string status) (a d : string) (s s' : status) :
  σ !! a = Some s → ¬ satisfied (Some s) →
  satisfied (σ !! d) → satisfied (<[a := s']> σ !! d).
Proof.
  intros Ha Hs Hd. destruct (decide (a = d)) as [<- | Hne].
  - rewrite Ha in Hd. by destruct Hs.
  - by rewrite lookup_insert_ne.
Qed.

Lemma not_satisfied_pending : ¬ satisfied (Some PENDING).
Proof. intros [H | H]; discriminate H. Qed.

Lemma not_satisfied_running : ¬ satisfied (Some RUNNING).
Proof. intros [H | H]; discriminate H. Qed.

(** Changing a stage that is not yet in a terminal state, into a state
    in which it has begun only if its dependencies are satisfied, keeps
    the order. *)
Lemma ordered_insert (σ : gmap string status) (a : string) (s s' : status) :
  ordered reg σ →
  σ !! a = Some s → ¬ satisfied (Some s) →
  (begun s' → begun s ∨
     ∀ st, reg !! a = Some st → ∀ d, d ∈ dependencies st → satisfied (σ !! d)) →
  ordered reg (<[a := s']> σ).
Proof.
  intros Hord Ha Hs Hnew x st sx Hst Hx Hb d Hd.
  apply (satisfied_insert σ a d s s' Ha Hs).
  destruct (decide (a = x)) as [<- | Hne].
  - rewrite lookup_insert_eq in Hx. injection Hx as <-.
    destruct (Hnew Hb) as [Hbs | Hdeps]; [by eapply Hord | by eapply Hdeps].
  - rewrite lookup_insert_ne in Hx by done. by eapply Hord.
Qed.

Lemma step_ordered (c c' : config) :
  step reg force procs c c' → ordered reg (statuses c) → ordered reg (statuses c').
Proof.
  intros Hstep Hord.
  destruct Hstep as [a st σ w Ha Hst Hdeps _ _ | a st σ w Ha Hst _ _
                    | a σ w fs t Ha | a σ w fs t code Ha _]; simpl in *.
  - apply (ordered_insert σ a PENDING); [done | done | apply not_satisfied_pending |].
    intros _. right. intros st' Hst'. by simplify_eq.
  - apply (ordered_insert σ a PENDING); [done | done | apply not_satisfied_pending |].
    intros [H | [H | H]]; discriminate H.
  - apply (ordered_insert σ a RUNNING); [done | done | apply not_satisfied_running |].
    intros _. left. by left.
  - apply (ordered_insert σ a RUNNING); [done | done | apply not_satisfied_running |].
    intros _. left. by left.
Qed.

Lemma initial_pending (targets : list string) (w : World) (a : string) (s : status) :
  statuses (initial reg targets w) !! a = Some s → s = PENDING.
Proof.
  unfold initial. simpl. rewrite lookup_gset_to_gmap_Some. by intros [_ <-].
Qed.

Lemma initial_ordered (targets : list string) (w : World) :
  ordered reg (statuses (initial reg targets w)).
Proof.
  intros a st s _ Hs Hb. apply initial_pending in Hs as ->.
  destruct Hb as [H | [H | H]]; discriminate H.
Qed.

Lemma steps_ordered (targets : list string) (w : World) (c : config) :
  rtc (step reg force procs) (initial reg targets w) c → ordered reg (statuses c).
Proof.
  intros Hsteps.
  apply (rtc_ind_r (R := step reg force procs)
           (λ c, ordered reg (statuses c)) (initial reg targets w));
    [apply initial_ordered | | exact Hsteps].
  intros y z _ Hyz IH. by eapply step_ordered.
Qed.

(** The only way from [PENDING] to [RUNNING] is the guarded one. *)
Lemma begins_guarded (c c' : config) (a : string) (st : Stage) :
  step reg force procs c c' →
  reg !! a = Some st →
  statuses c !! a = Some PENDING →
  statuses c' !! a = Some RUNNING →
  ∀ d, d ∈ dependencies st → satisfied (statuses c !! d).
Proof.
  intros Hstep Hst Hp Hr.
  destruct Hstep as [b st' σ w Hb Hst' Hdeps _ _ | b st' σ w Hb _ _ _
                    | b σ w fs t Hb | b σ w fs t code Hb _]; simpl in *.
  - destruct (decide (b = a)) as [-> | Hne]; [by simplify_eq |].
    rewrite lookup_insert_ne in Hr by done. congruence.
  - destruct (decide (b = a)) as [-> | Hne].
    + rewrite lookup_insert_eq in Hr. discriminate Hr.
    + rewrite lookup_insert_ne in Hr by done. congruence.
  - destruct (decide (b = a)) as [-> | Hne].
    + rewrite lookup_insert_eq in Hr. discriminate Hr.
    + rewrite lookup_insert_ne in Hr by done. congruence.
  - destruct (decide (b = a)) as [-> | Hne].
    + rewrite lookup_insert_eq in Hr. discriminate Hr.
    + rewrite lookup_insert_ne in Hr by done. congruence.
Qed.

(** *** Runs in which every stage is up to date *)

Variable targets : list string.
Variable w : World.

Hypothesis fresh : ∀ a st,
  a ∈ scope reg targets → reg !! a = Some st → resolver force a st w = false.

Lemma initial_idle : idle reg targets w (initial reg targets w).
Proof.
  split; [reflexivity |]. split; [apply dom_gset_to_gmap |].
  intros a s Hs. left. by eapply initial_pending.
Qed.

Lemma step_idle (c c' : config) :
  step reg force procs c c' → idle reg targets w c → idle reg targets w c'.
Proof.
  intros Hstep (Hw & Hdom & Hst).
  destruct Hstep as [a st σ w' Ha Hreg _ Hres _ | a st σ w' Ha Hreg _ _
                    | a σ w' fs t Ha | a σ w' fs t code Ha _];
    unfold idle; simpl in *.
  - subst w'. rewrite fresh in Hres; [discriminate Hres | | done].
    rewrite <- Hdom. apply elem_of_dom. by eexists.
  - split; [done |]. split.
    + rewrite dom_insert_L, <- Hdom.
      apply subseteq_union_1_L, singleton_subseteq_l, elem_of_dom. by eexists.
    + intros b s. rewrite lookup_insert_Some.
      intros [[_ <-] | [_ Hb]]; [by right | by eapply Hst].
  - destruct (Hst a RUNNING Ha) as [H | H]; discriminate H.
  - destruct (Hst a RUNNING Ha) as [H | H]; discriminate H.
Qed.

Lemma steps_idle (c : config) : rtc (step reg force procs) (initial reg targets w) c → idle reg targets w c.
Proof.
  intros Hsteps.
  apply (rtc_ind_r (R := step reg force procs) (idle reg targets w)
           (initial reg targets w));
    [apply initial_idle | | exact Hsteps].
  intros y z _ Hyz IH. by eapply step_idle.
Qed.

End Runs.

Example chain_scope :
  scope chain_registry ["task3"] = {[ "task1"; "task2"; "task3" ]}.
Proof. vm_compute. reflexivity. Qed.

Lemma chain_midway_reached :
  rtc (step chain_registry [] 30)
      (initial chain_registry ["task3"] nothing_yet) chain_midway.
Proof.
  eapply rtc_l.
  { apply (step_run chain_registry [] 30 "task1" (plain [] ["out1"]));
      [reflexivity | reflexivity | | reflexivity | vm_compute; lia].
    intros d Hd. by apply elem_of_nil in Hd. }
  eapply rtc_l.
  { apply (step_succeed chain_registry [] 30 "task1" _ _ {[ "out1" := 1%Z ]} 1).
    reflexivity. }
  eapply rtc_l; [| apply rtc_refl].
  apply (step_run chain_registry [] 30 "task2" (plain ["task1"] ["out2"]));
    [reflexivity | reflexivity | | reflexivity | vm_compute; lia].
  intros d Hd. apply list_elem_of_singleton in Hd as ->. by left.
Qed.

(** C8: in every state a run can reach, each stage that has begun
    ([RUNNING], [SUCCEEDED] or [FAILED]) has all its declared dependencies
    [SUCCEEDED] or [SKIPPED]; and whenever a step takes a stage from
    [PENDING] to [RUNNING], its dependencies were so before the step. *)
Theorem never_begins_early (reg : gmap string Stage) (force : list string)
    (procs : nat) (targets : list string) (w : World) (c : config) :
  rtc (step reg force procs) (initial reg targets w) c →
  (∀ a st s, reg !! a = Some st → statuses c !! a = Some s → begun s →
             ∀ d, d ∈ dependencies st → satisfied (statuses c !! d)) ∧
  (∀ c' a st, step reg force procs c c' → reg !! a = Some st →
              statuses c !! a = Some PENDING →
              statuses c' !! a = Some RUNNING →
              ∀ d, d ∈ dependencies st → satisfied (statuses c !! d)).
Proof.
  intros Hsteps. split.
  - by apply (steps_ordered reg force procs targets w).
  - intros c' a st. apply begins_guarded.
Qed.

Lemma never_begins_early_chain :
  (∀ a st s, chain_registry !! a = Some st →
             statuses chain_midway !! a = Some s → begun s →
             ∀ d, d ∈ dependencies st → satisfied (statuses chain_midway !! d)) ∧
  (∀ c' a st, step chain_registry [] 30 chain_midway c' →
              chain_registry !! a = Some st →
              statuses chain_midway !! a = Some PENDING →
              statuses c' !! a = Some RUNNING →
              ∀ d, d ∈ dependencies st → satisfied (statuses chain_midway !! d)).
Proof.
  apply (never_begins_early chain_registry [] 30 ["task3"] nothing_yet).
  apply chain_midway_reached.
Defined.






Lemma start_ok (reg : gmap string Stage) (targets : list string) (w : World)
    (c0 : config) :
  start reg targets w = inr c0 →
  c0 = initial reg targets w ∧
  ∀ a, a ∈ scope reg targets → is_Some (reg !! a).
Proof.
  unfold start. destruct (validate reg) as [err | []] eqn:Hv; [discriminate |].
  destruct (filter (λ t, reg !! t = None) targets) as [|t l] eqn:Hf;
    [| discriminate].
  intros [= <-]. split; [reflexivity |].
  apply validate_ok in Hv as [Hu _].
  intros a Ha. destruct (reg !! a) as [st|] eqn:Hreg; [by exists st |].
  exfalso. unfold scope in Ha. apply elem_of_union in Ha as [Ha | Ha].
  - apply elem_of_list_to_set in Ha.
    assert (a ∈ filter (λ t, reg !! t = None) targets) as Hin
      by by apply list_elem_of_filter.
    rewrite Hf in Hin. by apply elem_of_nil in Hin.
  - apply elem_of_set_bind in Ha as (t & _ & Ha).
    apply elem_of_reach, tc_dep_last in Ha as [x Hx].
    assert ((x, a) ∈ unknown_refs reg) as Hin by by apply elem_of_unknown_refs.
    rewrite Hu in Hin. by apply elem_of_nil in Hin.
Qed.

Lemma chain_all_fresh (a : string) (st : Stage) :
  a ∈ scope chain_registry ["task3"] →
  chain_registry !! a = Some st →
  resolver [] a st all_built = false.
Proof.
  rewrite chain_scope, !elem_of_union, !elem_of_singleton.
  intros [[-> | ->] | ->] [= <-]; reflexivity.
Qed.

Lemma chain_task1_skipped_reached :
  rtc (step chain_registry [] 30)
      (initial chain_registry ["task3"] all_built) chain_task1_skipped.
Proof.
  eapply rtc_l; [| apply rtc_refl].
  apply (step_skip chain_registry [] 30 "task1" (plain [] ["out1"]));
    [vm_compute; reflexivity | reflexivity | | reflexivity].
  intros d Hd. destruct (proj1 (elem_of_nil d) Hd).
Qed.

(** A run at whose start the Staleness Resolver reports every stage up to
    date starts nothing: in every state it reaches no stage is [RUNNING],
    files and checkpoints are those of the start, every step it can take
    is a [PENDING] to [SKIPPED] one, and when it has ended every stage of
    the run is [SKIPPED]. *)
Lemma up_to_date_run_skips_all (reg : gmap string Stage) (force : list string)
    (procs : nat) (targets : list string) (w : World) (c0 c : config) :
  start reg targets w = inr c0 →
  (∀ a st, a ∈ scope reg targets → reg !! a = Some st →
           resolver force a st w = false) →
  rtc (step reg force procs) c0 c →
  world c = w ∧
  (∀ a, statuses c !! a ≠ Some RUNNING) ∧
  (∀ c', step reg force procs c c' →
         ∃ a, statuses c !! a = Some PENDING ∧
              statuses c' = <[a := SKIPPED]> (statuses c)) ∧
  (ended reg force procs c →
   ∀ a, a ∈ scope reg targets → statuses c !! a = Some SKIPPED).
Proof.
  intros Hstart Hfresh Hsteps.
  apply start_ok in Hstart as [-> Hknown].
  pose proof (steps_idle reg force procs targets w Hfresh c Hsteps)
    as (Hw & Hdom & Hst).
  split; [exact Hw |]. split; [| split].
  - intros a Ha. destruct (Hst a RUNNING Ha) as [H | H]; discriminate H.
  - intros c' Hstep.
    destruct Hstep as [a st σ w' Ha Hreg _ Hres _ | a st σ w' Ha Hreg _ _
                      | a σ w' fs t Ha | a σ w' fs t code Ha _]; simpl in *.
    + subst w'. rewrite Hfresh in Hres; [discriminate Hres | | done].
      rewrite <- Hdom. apply elem_of_dom. by eexists.
    + by exists a.
    + destruct (Hst a RUNNING Ha) as [H | H]; discriminate H.
    + destruct (Hst a RUNNING Ha) as [H | H]; discriminate H.
  - intros Hend a Ha.
    assert (is_Some (statuses c !! a)) as [s Hs]
      by (apply elem_of_dom; by rewrite Hdom).
    destruct (Hst a s Hs) as [-> | ->]; [| exact Hs].
    exfalso. destruct (Hknown a Ha) as [st Hreg].
    destruct c as [σ w']. simpl in *. subst w'.
    apply (Hend {| statuses := <[a := SKIPPED]> σ; world := w |}).
    apply (step_skip reg force procs a st); [exact Hs | exact Hreg | | by apply Hfresh].
    intros d _ Hd. destruct (Hst d FAILED Hd) as [H | H]; discriminate H.
Qed.

Lemma up_to_date_run_skips_all_chain :
  world chain_task1_skipped = all_built ∧
  (∀ a, statuses chain_task1_skipped !! a ≠ Some RUNNING) ∧
  (∀ c', step chain_registry [] 30 chain_task1_skipped c' →
         ∃ a, statuses chain_task1_skipped !! a = Some PENDING ∧
              statuses c' = <[a := SKIPPED]> (statuses chain_task1_skipped)) ∧
  (ended chain_registry [] 30 chain_task1_skipped →
   ∀ a, a ∈ scope chain_registry ["task3"] →
        statuses chain_task1_skipped !! a = Some SKIPPED).
Proof.
  apply (up_to_date_run_skips_all chain_registry [] 30 ["task3"] all_built
           (initial chain_registry ["task3"] all_built)).
  - vm_compute. reflexivity.
  - apply chain_all_fresh.
  - apply chain_task1_skipped_reached.
Defined.

(** *** A second run after a first one *)

Lemma up_to_date_checkpoint (st : Stage) (ck : option Checkpoint)
    (fs : gmap string Z) :
  up_to_date st ck fs = true → ∃ c, ck = Some c ∧ exit_status c = 0%Z.
Proof.
  unfold up_to_date. destruct (outputs st) as [|o os]; [discriminate |].
  cbn [forallb]. intros H. apply andb_prop in H as [H _].
  destruct (fs !! o) as [t_out|]; [| discriminate H].
  apply andb_prop in H as [_ H].
  destruct ck as [c|]; [| discriminate H].
  apply andb_prop in H as [H _]. apply bool_decide_eq_true in H. by exists c.
Qed.




(** Starting a stage and seeing it succeed takes two steps. *)
Lemma run_and_succeed (reg : gmap string Stage) (force : list string)
    (procs : nat) (a : string) (st : Stage) (fs : gmap string Z) (t : Z)
    (c : config) :
  statuses c !! a = Some PENDING →
  reg !! a = Some st →
  (∀ d, d ∈ dependencies st → satisfied (statuses c !! d)) →
  resolver force a st (world c) = true →
  running (statuses c) < procs →
  rtc (step reg force procs) c (after_success a fs t c).
Proof.
  destruct c as [σ w]. simpl. intros Ha Hst Hdeps Hres Hcap.
  eapply rtc_l; [by apply (step_run reg force procs a st) |].
  eapply rtc_l; [| apply rtc_refl].
  apply (step_succeed reg force procs a (<[a := RUNNING]> σ) w fs t).
  apply lookup_insert_eq.
Qed.





(** The second run of the chain has then ended, with nothing started. *)
Lemma chain_rerun_all_skipped (a : string) :
  a ∈ scope chain_registry ["task3"] →
  statuses chain_rerun !! a = Some SKIPPED.
Proof.
  rewrite chain_scope, !elem_of_union, !elem_of_singleton.
  intros [[-> | ->] | ->]; vm_compute; reflexivity.
Qed.



(** The hypotheses of the theorem are needed: a run that skips every stage
    found each of them unforced, with a checkpoint of a successful attempt
    and with its outputs built. *)
Lemma up_to_date_only_if_built (st : Stage) (ck : option Checkpoint)
    (fs : gmap string Z) :
  up_to_date st ck fs = true → built st ck fs.
Proof.
  unfold up_to_date, built.
  destruct (outputs st) as [|o os]; [discriminate |].
  intros H. split; [discriminate |]. intros o' Ho'.
  apply list_elem_of_In in Ho'.
  pose proof (proj1 (forallb_forall _ _) H o' Ho') as Ho. simpl in Ho.
  destruct (fs !! o') as [t_out|]; [| discriminate Ho].
  apply andb_prop in Ho as [Hins Hck].
  exists t_out. split; [reflexivity |]. split.
  - intros i Hi. apply list_elem_of_In in Hi.
    pose proof (proj1 (forallb_forall _ _) Hins i Hi) as Hi'. simpl in Hi'.
    destruct (fs !! i) as [t_in|]; [| discriminate Hi'].
    exists t_in. split; [reflexivity |]. by apply bool_decide_eq_true in Hi'.
  - intros c ->. apply andb_prop in Hck as [_ Hck].
    by apply bool_decide_eq_true in Hck.
Qed.

Lemma step_keeps_begun (reg : gmap string Stage) (force : list string)
    (procs : nat) (c c' : config) (b : string) (s : status) :
  step reg force procs c c' →
  statuses c !! b = Some s → begun s →
  ∃ s', statuses c' !! b = Some s' ∧ begun s'.
Proof.
  intros Hstep Hb Hs.
  destruct Hstep as [a st σ w Ha _ _ _ _ | a st σ w Ha _ _ _
                    | a σ w fs t Ha | a σ w fs t code Ha _]; simpl in *.
  - destruct (decide (a = b)) as [<- | Hne].
    + exists RUNNING. rewrite lookup_insert_eq. split; [reflexivity | by left].
    + exists s. by rewrite lookup_insert_ne.
  - destruct (decide (a = b)) as [<- | Hne].
    + rewrite Ha in Hb. injection Hb as <-.
      destruct Hs as [H | [H | H]]; discriminate H.
    + exists s. by rewrite lookup_insert_ne.
  - destruct (decide (a = b)) as [<- | Hne].
    + exists SUCCEEDED. rewrite lookup_insert_eq.
      split; [reflexivity | right; by left].
    + exists s. by rewrite lookup_insert_ne.
  - destruct (decide (a = b)) as [<- | Hne].
    + exists FAILED. rewrite lookup_insert_eq.
      split; [reflexivity | right; by right].
    + exists s. by rewrite lookup_insert_ne.
Qed.

Lemma steps_within_scope (reg : gmap string Stage) (force : list string)
    (procs : nat) (targets : list string) (w : World) (c : config) :
  rtc (step reg force procs) (initial reg targets w) c →
  ∀ a s, statuses c !! a = Some s → a ∈ scope reg targets.
Proof.
  intros Hsteps.
  apply (rtc_ind_r (R := step reg force procs)
           (λ c, ∀ a s, statuses c !! a = Some s → a ∈ scope reg targets)
           (initial reg targets w)); [| | exact Hsteps].
  - intros a s. unfold initial. simpl. rewrite lookup_gset_to_gmap_Some.
    by intros [H _].
  - intros c1 c2 _ Hstep IH b s.
    destruct Hstep as [a st σ w' Ha _ _ _ _ | a st σ w' Ha _ _ _
                      | a σ w' fs t Ha | a σ w' fs t code Ha _]; simpl in *;
      (destruct (decide (a = b)) as [<- | Hne];
       [intros _; by apply (IH a _ Ha)
       | rewrite lookup_insert_ne by done; apply IH]).
Qed.

Lemma skipped_was_up_to_date (reg : gmap string Stage) (force : list string)
    (procs : nat) (targets : list string) (w : World) (c : config) :
  rtc (step reg force procs) (initial reg targets w) c →
  (∀ a s, statuses c !! a = Some s → ¬ begun s) →
  world c = w ∧
  ∀ a, statuses c !! a = Some SKIPPED →
       ∃ st, reg !! a = Some st ∧ resolver force a st w = false.
Proof.
  intros Hsteps.
  apply (rtc_ind_r (R := step reg force procs)
           (λ c, (∀ a s, statuses c !! a = Some s → ¬ begun s) →
                 world c = w ∧
                 ∀ a, statuses c !! a = Some SKIPPED →
                      ∃ st, reg !! a = Some st ∧ resolver force a st w = false)
           (initial reg targets w)); [| | exact Hsteps].
  - intros _. split; [reflexivity |].
    intros a H. apply initial_pending in H. discriminate H.
  - intros c1 c2 _ Hstep IH Hnone.
    assert (∀ a s, statuses c1 !! a = Some s → ¬ begun s) as Hnone1.
    { intros a s Ha Hs.
      destruct (step_keeps_begun reg force procs c1 c2 a s Hstep Ha Hs)
        as (s' & Ha' & Hs').
      exact (Hnone a s' Ha' Hs'). }
    destruct (IH Hnone1) as [Hw Hskipped].
    destruct Hstep as [a st σ w' Ha Hst _ _ _ | a st σ w' Ha Hst _ Hres
                      | a σ w' fs t Ha | a σ w' fs t code Ha _]; simpl in *.
    + destruct (Hnone a RUNNING); [apply lookup_insert_eq | by left].
    + split; [exact Hw |]. intros b.
      destruct (decide (a = b)) as [<- | Hne].
      * intros _. exists st. by rewrite <- Hw.
      * rewrite lookup_insert_ne by done. apply Hskipped.
    + destruct (Hnone a SUCCEEDED); [apply lookup_insert_eq | right; by left].
    + destruct (Hnone a FAILED); [apply lookup_insert_eq | right; by right].
Qed.

Lemma second_run_skips_only_if (reg : gmap string Stage) (force : list string)
    (procs : nat) (targets : list string) (w : World) (c : config) :
  rtc (step reg force procs) (initial reg targets w) c →
  (∀ a, a ∈ scope reg targets → statuses c !! a = Some SKIPPED) →
  ∀ a, a ∈ scope reg targets →
    ∃ st, reg !! a = Some st ∧ ¬ (a ∈ force) ∧
          built st (checkpoints w !! a) (files w) ∧
          ∃ ck, checkpoints w !! a = Some ck ∧ exit_status ck = 0%Z.
Proof.
  intros Hsteps Hall a Ha.
  destruct (skipped_was_up_to_date reg force procs targets w c Hsteps)
    as [_ Hskipped].
  { intros b s Hb Hs.
    pose proof (steps_within_scope reg force procs targets w c Hsteps b s Hb)
      as Hin.
    rewrite (Hall b Hin) in Hb. injection Hb as <-.
    destruct Hs as [H | [H | H]]; discriminate H. }
  destruct (Hskipped a (Hall a Ha)) as (st & Hst & Hres).
  exists st. split; [exact Hst |].
  unfold resolver, stale in Hres. apply orb_false_elim in Hres as [Hforce Hup].
  apply bool_decide_eq_false in Hforce. apply negb_false_iff in Hup.
  split; [exact Hforce |]. split.
  - by apply up_to_date_only_if_built.
  - by apply up_to_date_checkpoint in Hup.
Qed.

(** A forced stage is started again by the second run, whatever the first
    one left. *)
Example forced_stage_runs_again :
  ∃ c2, step chain_registry ["task1"] 30
          (initial chain_registry ["task3"] (world chain_done)) c2 ∧
        statuses c2 !! "task1" = Some RUNNING.
Proof.
  eexists. split.
  - refine (step_run chain_registry ["task1"] 30 "task1" (plain [] ["out1"])
              (statuses (initial chain_registry ["task3"] (world chain_done)))
              (world chain_done) _ _ _ _ _).
    + vm_compute. reflexivity.
    + reflexivity.
    + intros d Hd. destruct (proj1 (elem_of_nil d) Hd).
    + reflexivity.
    + vm_compute. lia.
  - apply lookup_insert_eq.
Qed.

(** So is a stage whose first attempt succeeded without writing the
    declared output. *)
Example unwritten_output_runs_again :
  rtc (step solo_registry [] 30)
      (initial solo_registry ["task1"] nothing_yet) solo_unwritten ∧
  statuses solo_unwritten !! "task1" = Some SUCCEEDED ∧
  ∃ c2, step solo_registry [] 30
          (initial solo_registry ["task1"] (world solo_unwritten)) c2 ∧
        statuses c2 !! "task1" = Some RUNNING.
Proof.
  split; [| split].
  - apply (run_and_succeed solo_registry [] 30 "task1" (plain [] ["out1"]) ∅ 1);
      [vm_compute; reflexivity | reflexivity | | reflexivity | vm_compute; lia].
    intros d Hd. destruct (proj1 (elem_of_nil d) Hd).
  - vm_compute. reflexivity.
  - eexists. split.
    + refine (step_run solo_registry [] 30 "task1" (plain [] ["out1"])
                (statuses (initial solo_registry ["task1"] (world solo_unwritten)))
                (world solo_unwritten) _ _ _ _ _).
      * vm_compute. reflexivity.
      * reflexivity.
      * intros d Hd. destruct (proj1 (elem_of_nil d) Hd).
      * reflexivity.
      * vm_compute. lia.
    + apply lookup_insert_eq.
Qed.

(** * Further properties of the start-up script *)

(** ** Every way a run can end *)

(** The trace and the result of a run, for each configuration there can
    be. *)
Lemma run_cases (e : env) :
  (pipeline e !! "logDir" = None ∧ run e = ([], inl (KeyError "logDir"))) ∨
  ∃ l, pipeline e !! "logDir" = Some l ∧
    ((working_files e !! "projectname" = None ∧
      run e = (banner_lines e, inl (KeyError "projectname"))) ∨
     (∃ v, working_files e !! "projectname" = Some v ∧
           (∀ p, v ≠ PyStr p) ∧
           run e = (banner_lines e, inl AttributeError)) ∨
     (∃ p, working_files e !! "projectname" = Some (PyStr p) ∧
           (year (now e) < 1900)%nat ∧
           run e = (banner_lines e, inl ValueError)) ∨
     (∃ p, working_files e !! "projectname" = Some (PyStr p) ∧
           (1900 ≤ year (now e))%nat ∧
           working_files e !! "projectauthor" = None ∧
           run e = (setup_events e p l, inl (KeyError "projectauthor"))) ∨
     (∃ p a, working_files e !! "projectname" = Some (PyStr p) ∧
             (1900 ≤ year (now e))%nat ∧
             working_files e !! "projectauthor" = Some a ∧
             run e = (setup_events e p l ++
                      [ Ev_print "Project author is %s" [a];
                        Ev_print "" [];
                        Ev_create_emptyfile "pipeline_quickstart.Start" ],
                      inr tt))).
Proof.
  destruct (pipeline e !! "logDir") as [l|] eqn:Hl.
  2:{ left. split; [reflexivity |]. unfold run, script.
      cbv [mbind M_bind bind]. unfold getitem at 1. by rewrite Hl. }
  right. exists l. split; [reflexivity |].
  destruct (working_files e !! "projectname") as [v|] eqn:Hp.
  2:{ left. split; [reflexivity |]. by apply (run_without_project e l). }
  right.
  destruct v as [|b|z|p|vs].
  1-3,5: (left; eexists; split; [reflexivity |]; split; [discriminate |];
          unfold run, script; cbv [mbind M_bind bind]; unfold getitem at 1;
          rewrite Hl; cbn [ret emit app];
          unfold CURRENT_PROJECT_DIR; cbv [mbind M_bind bind]; unfold getitem;
          rewrite Hp; reflexivity).
  right. destruct (Nat.ltb_spec (year (now e)) 1900) as [Hlt | Hge].
  { left. exists p. split; [reflexivity |]. split; [exact Hlt |].
    unfold run, script. cbv [mbind M_bind bind]. unfold getitem at 1.
    rewrite Hl. cbn [ret emit app].
    unfold CURRENT_PROJECT_DIR. cbv [mbind M_bind bind]. unfold getitem, strftime.
    rewrite Hp. cbn [path_arg ret].
    destruct (Nat.ltb_spec (year (now e)) 1900) as [_ | Hge]; [reflexivity | lia]. }
  right. destruct (working_files e !! "projectauthor") as [a|] eqn:Ha.
  - right. exists p, a. repeat (split; [done |]). by apply run_complete.
  - left. exists p. repeat (split; [done |]). by apply run_without_author.
Qed.

Lemma created_dirs_banner (e : env) : created_dirs (banner_lines e) = [].
Proof. reflexivity. Qed.

Lemma created_dirs_setup (e : env) (p : string) (l : pyval) :
  created_dirs (setup_events e p l) =
  [ dir_of e p; pipeline_quickstart_plots (dir_of e p) ].
Proof. reflexivity. Qed.

Lemma created_files_setup (e : env) (p : string) (l : pyval) :
  created_files (setup_events e p l) = [].
Proof. reflexivity. Qed.

(** X1: a configuration that names the project and not its author gets
    both directories made and then a [KeyError] for [projectauthor]; the
    flag file is not made. *)
Theorem run_stops_without_author (e : env) (p : string) (l : pyval) :
  working_files e !! "projectname" = Some (PyStr p) →
  working_files e !! "projectauthor" = None →
  pipeline e !! "logDir" = Some l →
  (1900 ≤ year (now e))%nat →
  (run e).2 = inl (KeyError "projectauthor") ∧
  fs_events (run e).1 =
    [ Ev_create_dir (dir_of e p);
      Ev_chdir (dir_of e p);
      Ev_create_dir (pipeline_quickstart_plots (dir_of e p)) ] ∧
  created_files (run e).1 = [] ∧
  last (run e).1 = Some (Ev_print "Log dir is %s" [l]).
Proof.
  intros Hp Ha Hl Hy.
  destruct (run_cases e) as [[Hnone _] | (l' & Hl' & Hcases)]; [congruence |].
  assert (l' = l) as -> by congruence.
  destruct Hcases as [[Hp' _] | [(v & Hp' & Hv & _) | [(p' & _ & Hlt & _)
                     | [(p' & Hp' & _ & _ & Hrun) | (p' & a & _ & _ & Ha' & _)]]]].
  - congruence.
  - rewrite Hp in Hp'. injection Hp' as <-. by destruct (Hv p).
  - lia.
  - assert (p' = p) as -> by congruence. rewrite Hrun. repeat split.
  - congruence.
Qed.

Lemma run_stops_without_author_demo :
  (run demo_no_author).2 = inl (KeyError "projectauthor") ∧
  fs_events (run demo_no_author).1 =
    [ Ev_create_dir (dir_of demo_no_author "demo");
      Ev_chdir (dir_of demo_no_author "demo");
      Ev_create_dir (pipeline_quickstart_plots (dir_of demo_no_author "demo")) ] ∧
  created_files (run demo_no_author).1 = [] ∧
  last (run demo_no_author).1 =
    Some (Ev_print "Log dir is %s" [PyStr "log_quickstart"]).
Proof.
  apply (run_stops_without_author demo_no_author "demo" (PyStr "log_quickstart")).
  - reflexivity.
  - reflexivity.
  - reflexivity.
  - simpl. lia.
Defined.

(** X2: without a [logDir] in the pipeline options the script stops at
    its first look-up, before the banner: nothing is printed and nothing is
    made, whatever the rest of the configuration. *)
Theorem run_without_logdir (e : env) :
  pipeline e !! "logDir" = None →
  run e = ([], inl (KeyError "logDir")).
Proof.
  intros Hl.
  destruct (run_cases e) as [[_ Hrun] | (l & Hl' & _)]; [exact Hrun | congruence].
Qed.

Lemma run_without_logdir_demo :
  run demo_no_logdir = ([], inl (KeyError "logDir")).
Proof. apply (run_without_logdir demo_no_logdir). reflexivity. Defined.

(** X3: for every configuration, the flag file [pipeline_quickstart.Start]
    is made exactly when the run ends normally, it is then the last thing
    the run does, and no other file is made. *)
Theorem flag_file_iff_success (e : env) :
  ("pipeline_quickstart.Start" ∈ created_files (run e).1 ↔ (run e).2 = inr tt) ∧
  ((run e).2 = inr tt →
   last (run e).1 = Some (Ev_create_emptyfile "pipeline_quickstart.Start")) ∧
  (created_files (run e).1 = [] ∨
   created_files (run e).1 = ["pipeline_quickstart.Start"]).
Proof.
  destruct (run_cases e) as [[_ Hrun] | (l & _ & Hcases)].
  { rewrite Hrun. simpl. split; [| split; [discriminate | by left]].
    split; [intros H; by apply elem_of_nil in H | discriminate]. }
  destruct Hcases as [[_ Hrun] | [(v & _ & _ & Hrun) | [(p & _ & _ & Hrun)
                     | [(p & _ & _ & _ & Hrun) | (p & a & _ & _ & _ & Hrun)]]]];
    rewrite Hrun; simpl.
  1-4: (split; [| split; [discriminate | by left]];
        split; [intros H; by apply elem_of_nil in H | discriminate]).
  split; [| split; [reflexivity | by right]].
  split; [reflexivity | intros _; apply list_elem_of_here].
Qed.

(** X4: for every configuration, a run makes either no directory or the
    project directory and then its plots directory; a run that fails and
    yet leaves directories behind failed on the missing [projectauthor]. *)
Theorem directories_all_or_nothing (e : env) :
  (created_dirs (run e).1 = [] ∨
   ∃ p, working_files e !! "projectname" = Some (PyStr p) ∧
        created_dirs (run e).1 =
          [ dir_of e p; pipeline_quickstart_plots (dir_of e p) ]) ∧
  (∀ x, (run e).2 = inl x → created_dirs (run e).1 ≠ [] →
        x = KeyError "projectauthor").
Proof.
  destruct (run_cases e) as [[_ Hrun] | (l & _ & Hcases)].
  { rewrite Hrun. simpl. split; [by left |]. by intros x _ H. }
  destruct Hcases as [[_ Hrun] | [(v & _ & _ & Hrun) | [(p & _ & _ & Hrun)
                     | [(p & Hp & _ & _ & Hrun) | (p & a & Hp & _ & _ & Hrun)]]]];
    rewrite Hrun; simpl.
  1-3: (split; [by left |]; by intros x _ H).
  - split; [right; by exists p |]. by intros x [= <-] _.
  - split; [right; by exists p |]. intros x Hx. discriminate Hx.
Qed.

(** X10: a project name that is not a string (a number, [None], a list)
    makes [os.path.join] fail with an [AttributeError] right after the
    banner; no directory and no file is made. *)
Theorem run_with_unusable_name (e : env) (v l : pyval) :
  working_files e !! "projectname" = Some v →
  (∀ p, v ≠ PyStr p) →
  pipeline e !! "logDir" = Some l →
  run e = (banner_lines e, inl AttributeError) ∧
  created_dirs (run e).1 = [] ∧
  created_files (run e).1 = [].
Proof.
  intros Hp Hv Hl.
  destruct (run_cases e) as [[Hnone _] | (l' & _ & Hcases)]; [congruence |].
  destruct Hcases as [[Hp' _] | [(v' & _ & _ & Hrun) | [(p & Hp' & _ & _)
                     | [(p & Hp' & _ & _ & _) | (p & a & Hp' & _ & _ & _)]]]].
  - congruence.
  - rewrite Hrun. repeat split.
  - rewrite Hp in Hp'. injection Hp' as ->. by destruct (Hv p).
  - rewrite Hp in Hp'. injection Hp' as ->. by destruct (Hv p).
  - rewrite Hp in Hp'. injection Hp' as ->. by destruct (Hv p).
Qed.

Lemma run_with_unusable_name_demo :
  run demo_numbered = (banner_lines demo_numbered, inl AttributeError) ∧
  created_dirs (run demo_numbered).1 = [] ∧
  created_files (run demo_numbered).1 = [].
Proof.
  apply (run_with_unusable_name demo_numbered (PyInt 7) (PyStr "log_quickstart")).
  - reflexivity.
  - intros p H. discriminate H.
  - reflexivity.
Defined.

(** ** Where the directories are *)

Lemma append_not_empty (a : string) (c : ascii) (t : string) :
  a +:+ String c t ≠ "".
Proof. destruct a; discriminate. Qed.

Lemma endswith_slash_suffix (s : string) (c : ascii) (t : string) :
  OsPath.endswith_slash (s +:+ String c t) = OsPath.endswith_slash (String c t).
Proof.
  induction s as [|x s IH]; [reflexivity |].
  change (OsPath.endswith_slash (String x (s +:+ String c t))
          = OsPath.endswith_slash (String c t)).
  destruct (s +:+ String c t) as [|y r] eqn:Hs.
  - by destruct (append_not_empty s c t).
  - exact IH.
Qed.

Lemma startswith_slash_prefix (a : string) (c : ascii) (t : string) :
  c ≠ "/"%char →
  OsPath.startswith_slash (a +:+ String c t) = OsPath.startswith_slash a.
Proof.
  intros Hc. destruct a as [|x a]; [| reflexivity].
  simpl. destruct c as [[] [] [] [] [] [] [] []]; try reflexivity.
  by destruct Hc.
Qed.

Lemma startswith_slash_app (a b : string) :
  a ≠ "" → OsPath.startswith_slash (a +:+ b) = OsPath.startswith_slash a.
Proof. intros Ha. destruct a; [done | reflexivity]. Qed.

(** What [os.path.join(a, b)] is when [b] is relative. *)
Lemma join_relative_cases (a b : string) :
  OsPath.startswith_slash b = false →
  OsPath.join a [b] = a +:+ b ∨ OsPath.join a [b] = a +:+ "/" +:+ b.
Proof.
  intros Hb. unfold OsPath.join, OsPath.join_step. cbn [fold_left]. rewrite Hb.
  destruct (decide (a = "")); [by left |].
  destruct (OsPath.endswith_slash a); [by left | by right].
Qed.

Lemma join_startswith_slash (a b : string) :
  OsPath.startswith_slash (OsPath.join a [b]) =
  OsPath.startswith_slash b || OsPath.startswith_slash a.
Proof.
  unfold OsPath.join, OsPath.join_step. cbn [fold_left].
  destruct (OsPath.startswith_slash b) eqn:Hb; [exact Hb |].
  destruct (decide (a = "")) as [-> | Ha]; [exact Hb |].
  destruct (OsPath.endswith_slash a); by rewrite startswith_slash_app.
Qed.

Lemma dir_of_endswith_slash (e : env) (p : string) :
  OsPath.endswith_slash (dir_of e p) = true.
Proof.
  unfold dir_of.
  change ("-pipeline_quickstart-" +:+ stamp_of (now e) +:+ "/")
    with (String "-" ("pipeline_quickstart-" +:+ stamp_of (now e) +:+ "/")).
  rewrite endswith_slash_suffix.
  change (String "-" ("pipeline_quickstart-" +:+ stamp_of (now e) +:+ "/"))
    with ("-pipeline_quickstart-" +:+ (stamp_of (now e) +:+ "/")).
  rewrite <- append_assoc.
  by rewrite (endswith_slash_suffix _ "/" "").
Qed.

Lemma dir_of_startswith_slash (e : env) (p : string) :
  OsPath.startswith_slash (dir_of e p) =
  OsPath.startswith_slash p || OsPath.startswith_slash (witsGWAS_PROJECTS_DIR e).
Proof.
  unfold dir_of.
  change ("-pipeline_quickstart-" +:+ stamp_of (now e) +:+ "/")
    with (String "-" ("pipeline_quickstart-" +:+ stamp_of (now e) +:+ "/")).
  rewrite startswith_slash_prefix by discriminate.
  apply join_startswith_slash.
Qed.

Lemma plots_of_slash_dir (d : string) :
  OsPath.endswith_slash d = true →
  pipeline_quickstart_plots d =
    (if OsPath.startswith_slash d then d
     else witsGWAS_SCRIPTS_ROOT_DIR +:+ d) +:+ "pipeline_quickstart_plots/".
Proof.
  intros Hd. unfold pipeline_quickstart_plots, OsPath.join.
  cbn [fold_left]. unfold OsPath.join_step at 2.
  assert (d ≠ "") as Hne by (intros ->; discriminate Hd).
  destruct (OsPath.startswith_slash d) eqn:Habs.
  - unfold OsPath.join_step. cbn [OsPath.startswith_slash].
    destruct (decide (d = "")); [done |]. rewrite Hd.
    apply append_assoc.
  - destruct (decide (witsGWAS_SCRIPTS_ROOT_DIR = "")) as [H | _];
      [discriminate H |].
    change (OsPath.endswith_slash witsGWAS_SCRIPTS_ROOT_DIR) with true.
    cbv iota. unfold OsPath.join_step. cbn [OsPath.startswith_slash].
    destruct (decide (witsGWAS_SCRIPTS_ROOT_DIR +:+ d = "")) as [H | _].
    { destruct d; [done | discriminate H]. }
    destruct d as [|c d']; [done |].
    rewrite (endswith_slash_suffix witsGWAS_SCRIPTS_ROOT_DIR c d'), Hd.
    apply append_assoc.
Qed.

Lemma current_project_dir_inv (e : env) (tr tr' : list event) (d : string) :
  CURRENT_PROJECT_DIR e tr = (tr', inr d) →
  ∃ p, working_files e !! "projectname" = Some (PyStr p) ∧
       (1900 ≤ year (now e))%nat ∧ d = dir_of e p ∧ tr' = tr.
Proof.
  unfold CURRENT_PROJECT_DIR. cbv [mbind M_bind bind]. unfold getitem, strftime.
  destruct (working_files e !! "projectname") as [[| | |p|]|];
    try (intros H; discriminate H).
  cbv [path_arg ret].
  destruct (Nat.ltb_spec (year (now e)) 1900) as [Hlt | Hge];
    [intros H; discriminate H |].
  intros [= <- <-]. by exists p.
Qed.

(** X6: the plots directory lies in the project directory when that
    one is an absolute path: [os.path.join] then drops the placeholder
    root [absolute/path/to/witsGWAS/].  For a relative project directory
    the plots directory is the placeholder root followed by the project
    directory. *)
Theorem plots_dir_location (e : env) (d : string) :
  CURRENT_PROJECT_DIR e [] = ([], inr d) →
  (OsPath.startswith_slash d = true →
   pipeline_quickstart_plots d = d +:+ "pipeline_quickstart_plots/") ∧
  (OsPath.startswith_slash d = false →
   pipeline_quickstart_plots d =
     "absolute/path/to/witsGWAS/" +:+ d +:+ "pipeline_quickstart_plots/").
Proof.
  intros Hd. apply current_project_dir_inv in Hd as (p & _ & _ & -> & _).
  pose proof (plots_of_slash_dir _ (dir_of_endswith_slash e p)) as Hplots.
  split; intros Habs; rewrite Habs in Hplots; [exact Hplots |].
  rewrite Hplots. apply append_assoc.
Qed.

Lemma plots_dir_location_demo :
  (OsPath.startswith_slash (dir_of demo_relative "demo") = true →
   pipeline_quickstart_plots (dir_of demo_relative "demo") =
     dir_of demo_relative "demo" +:+ "pipeline_quickstart_plots/") ∧
  (OsPath.startswith_slash (dir_of demo_relative "demo") = false →
   pipeline_quickstart_plots (dir_of demo_relative "demo") =
     "absolute/path/to/witsGWAS/" +:+ dir_of demo_relative "demo"
       +:+ "pipeline_quickstart_plots/").
Proof.
  apply (plots_dir_location demo_relative (dir_of demo_relative "demo")).
  reflexivity.
Defined.

Example plots_dir_relative :
  pipeline_quickstart_plots (dir_of demo_relative "demo") =
  "absolute/path/to/witsGWAS/projects/demo-pipeline_quickstart-2015-03-04_05-06-07/pipeline_quickstart_plots/".
Proof. reflexivity. Qed.

(** X7: the project directory is an absolute path exactly when the project
    name or [SC.witsGWAS_PROJECTS_DIR] is one.  An absolute project name
    replaces the projects directory altogether.  A relative one is put
    right after the projects directory when that is empty or ends with
    [/], and after the projects directory and one [/] when it is not empty
    and does not end with [/]. *)
Theorem project_dir_placement (e : env) (p d : string) :
  working_files e !! "projectname" = Some (PyStr p) →
  CURRENT_PROJECT_DIR e [] = ([], inr d) →
  (OsPath.startswith_slash d =
     (OsPath.startswith_slash p
      || OsPath.startswith_slash (witsGWAS_PROJECTS_DIR e))) ∧
  (OsPath.startswith_slash p = true → d = p +:+ dir_tail (now e)) ∧
  (OsPath.startswith_slash p = false →
   witsGWAS_PROJECTS_DIR e = "" ∨
   OsPath.endswith_slash (witsGWAS_PROJECTS_DIR e) = true →
   d = witsGWAS_PROJECTS_DIR e +:+ p +:+ dir_tail (now e)) ∧
  (OsPath.startswith_slash p = false →
   witsGWAS_PROJECTS_DIR e ≠ "" →
   OsPath.endswith_slash (witsGWAS_PROJECTS_DIR e) = false →
   d = witsGWAS_PROJECTS_DIR e +:+ "/" +:+ p +:+ dir_tail (now e)).
Proof.
  intros Hp Hd. unfold dir_tail.
  apply current_project_dir_inv in Hd as (p' & Hp' & _ & -> & _).
  assert (p' = p) as -> by congruence.
  split; [apply dir_of_startswith_slash |].
  split; [| split].
  - intros Habs. unfold dir_of, OsPath.join, OsPath.join_step.
    cbn [fold_left]. by rewrite Habs.
  - intros Hrel Hroot. unfold dir_of, OsPath.join, OsPath.join_step.
    cbn [fold_left]. rewrite Hrel.
    destruct (decide (witsGWAS_PROJECTS_DIR e = "")) as [_ | Hne];
      [apply append_assoc |].
    destruct Hroot as [Hroot | Hroot]; [done |].
    rewrite Hroot. apply append_assoc.
  - intros Hrel Hne Hroot. unfold dir_of, OsPath.join, OsPath.join_step.
    cbn [fold_left]. rewrite Hrel.
    destruct (decide (witsGWAS_PROJECTS_DIR e = "")) as [Heq | _]; [done |].
    rewrite Hroot. by rewrite !append_assoc.
Qed.

Lemma project_dir_placement_demo :
  (OsPath.startswith_slash (dir_of demo "demo") =
     (OsPath.startswith_slash "demo"
      || OsPath.startswith_slash (witsGWAS_PROJECTS_DIR demo))) ∧
  (OsPath.startswith_slash "demo" = true →
   dir_of demo "demo" = "demo" +:+ dir_tail (now demo)) ∧
  (OsPath.startswith_slash "demo" = false →
   witsGWAS_PROJECTS_DIR demo = "" ∨
   OsPath.endswith_slash (witsGWAS_PROJECTS_DIR demo) = true →
   dir_of demo "demo" =
     witsGWAS_PROJECTS_DIR demo +:+ "demo" +:+ dir_tail (now demo)) ∧
  (OsPath.startswith_slash "demo" = false →
   witsGWAS_PROJECTS_DIR demo ≠ "" →
   OsPath.endswith_slash (witsGWAS_PROJECTS_DIR demo) = false →
   dir_of demo "demo" =
     witsGWAS_PROJECTS_DIR demo +:+ "/" +:+ "demo" +:+ dir_tail (now demo)).
Proof.
  apply (project_dir_placement demo "demo" (dir_of demo "demo")).
  - reflexivity.
  - reflexivity.
Defined.

Example project_dir_one_slash :
  dir_of demo "demo" =
  "/projects/demo-pipeline_quickstart-2015-03-04_05-06-07/".
Proof. reflexivity. Qed.

Example project_dir_no_second_slash :
  OsPath.join "/projects/" ["demo"] +:+ dir_tail demo_time =
  "/projects/demo-pipeline_quickstart-2015-03-04_05-06-07/".
Proof. reflexivity. Qed.

Example project_dir_empty_root :
  OsPath.join "" ["demo"] +:+ dir_tail demo_time =
  "demo-pipeline_quickstart-2015-03-04_05-06-07/".
Proof. reflexivity. Qed.

(** X5: with the shipped [pipeline] dictionary, whatever [working_files],
    the clock and the directories are, no run makes the log directory: it
    is [os.path.join(SC.CURRENT_PROJECT_DIR, "log_quickstart")] for the
    value [SC.CURRENT_PROJECT_DIR] had when the configuration was loaded,
    and every directory a run makes has a name ending in [/]. *)
Theorem shipped_log_dir_never_made (e : env) (d : string) :
  pipeline e = Config.pipeline d →
  pipeline e !! "logDir" = Some (PyStr (OsPath.join d ["log_quickstart"])) ∧
  ¬ (OsPath.join d ["log_quickstart"] ∈ created_dirs (run e).1) ∧
  (∀ x, x ∈ created_dirs (run e).1 → OsPath.endswith_slash x = true).
Proof.
  intros Hpipe.
  assert (∀ x, x ∈ created_dirs (run e).1 → OsPath.endswith_slash x = true)
    as Hslash.
  { intros x.
    destruct (run_cases e) as [[_ Hrun] | (l & _ & Hcases)].
    { rewrite Hrun. simpl. intros H. by apply elem_of_nil in H. }
    destruct Hcases as [[_ Hrun] | [(v & _ & _ & Hrun) | [(p & _ & _ & Hrun)
                       | [(p & _ & _ & _ & Hrun) | (p & a & _ & _ & _ & Hrun)]]]];
      rewrite Hrun; simpl.
    1-3: (intros H; by apply elem_of_nil in H).
    - rewrite !elem_of_cons, elem_of_nil. intros [-> | [-> | []]].
      + apply dir_of_endswith_slash.
      + unfold pipeline_quickstart_plots.
        by rewrite (endswith_slash_suffix _ "/" "").
    - rewrite !elem_of_cons, elem_of_nil. intros [-> | [-> | []]].
      + apply dir_of_endswith_slash.
      + unfold pipeline_quickstart_plots.
        by rewrite (endswith_slash_suffix _ "/" ""). }
  split; [by rewrite Hpipe |]. split; [| exact Hslash].
  intros Hin. apply Hslash in Hin.
  destruct (join_ends_with d "log_quickstart") as [parent Hj].
  rewrite Hj in Hin.
  change "log_quickstart" with (String "l" "og_quickstart") in Hin.
  rewrite endswith_slash_suffix in Hin. discriminate Hin.
Qed.

Lemma shipped_log_dir_never_made_demo :
  pipeline demo !! "logDir" = Some (PyStr (OsPath.join "" ["log_quickstart"])) ∧
  ¬ (OsPath.join "" ["log_quickstart"] ∈ created_dirs (run demo).1) ∧
  (∀ x, x ∈ created_dirs (run demo).1 → OsPath.endswith_slash x = true).
Proof. apply (shipped_log_dir_never_made demo ""). reflexivity. Defined.

(** ** The time stamp *)

Lemma zfill2_read (n : nat) :
  (n < 100)%nat → two_digits (zfill 2 n) = Some n.
Proof.
  intros Hn.
  assert (forallb (λ k, match two_digits (zfill 2 k) with
                        | Some m => Nat.eqb m k
                        | None => false
                        end) (seq 0 100) = true) as Hall
    by (vm_compute; reflexivity).
  rewrite forallb_forall in Hall.
  specialize (Hall n). rewrite in_seq in Hall.
  destruct (two_digits (zfill 2 n)) as [m|].
  - f_equal. apply Nat.eqb_eq, Hall. lia.
  - assert (false = true) as H by (apply Hall; lia). discriminate H.
Qed.

(** *** The decimal writing of a number, digit by digit *)

Lemma string_of_revapp (x y : Decimal.uint) :
  NilEmpty.string_of_uint (Decimal.revapp x y) =
  NilEmpty.string_of_uint (Decimal.revapp x Decimal.Nil)
    +:+ NilEmpty.string_of_uint y.
Proof.
  revert y. induction x as [|x IH|x IH|x IH|x IH|x IH|x IH|x IH|x IH|x IH|x IH];
    intros y; [reflexivity | ..];
    cbn [Decimal.revapp]; rewrite IH, (IH (_ Decimal.Nil)), append_assoc;
    reflexivity.
Qed.

Lemma revapp_not_nil (x y : Decimal.uint) :
  y ≠ Decimal.Nil → Decimal.revapp x y ≠ Decimal.Nil.
Proof.
  revert y. induction x; intros y Hy; cbn [Decimal.revapp];
    [exact Hy | apply IHx; discriminate ..].
Qed.

Lemma to_lu_not_nil (n : nat) : DecimalNat.Unsigned.to_lu n ≠ Decimal.Nil.
Proof.
  destruct n as [|n]; [discriminate |].
  rewrite DecimalNat.Unsigned.to_lu_succ.
  destruct (DecimalNat.Unsigned.to_lu n); discriminate.
Qed.

Lemma rev_not_nil (d : Decimal.uint) :
  d ≠ Decimal.Nil → Decimal.rev d ≠ Decimal.Nil.
Proof.
  intros Hd. unfold Decimal.rev.
  destruct d; [done | cbn [Decimal.revapp]; apply revapp_not_nil; discriminate ..].
Qed.

Lemma decimal_alt (n : nat) :
  decimal n =
  NilEmpty.string_of_uint (Decimal.rev (DecimalNat.Unsigned.to_lu n)).
Proof.
  unfold decimal. rewrite DecimalNat.Unsigned.to_uint_alt.
  pose proof (rev_not_nil _ (to_lu_not_nil n)) as Hne.
  by destruct (Decimal.rev (DecimalNat.Unsigned.to_lu n)).
Qed.

Lemma to_lu_add (r n : nat) :
  DecimalNat.Unsigned.to_lu (r + n) =
  Nat.iter r Decimal.Little.succ (DecimalNat.Unsigned.to_lu n).
Proof.
  induction r as [|r IH]; [reflexivity |].
  change (S r + n)%nat with (S (r + n)).
  rewrite DecimalNat.Unsigned.to_lu_succ, IH. reflexivity.
Qed.

(** A number from ten on is written as its tenth followed by its last
    digit. *)
Lemma decimal_tenfold (q r : nat) :
  q ≠ 0%nat → (r < 10)%nat →
  decimal (10 * q + r) = decimal q +:+ String (digit_char r) "".
Proof.
  intros Hq Hr. rewrite !decimal_alt.
  replace (10 * q + r)%nat with (r + 10 * q)%nat by lia.
  rewrite to_lu_add, (DecimalNat.Unsigned.to_lu_tenfold q Hq).
  generalize (DecimalNat.Unsigned.to_lu q). intros x.
  unfold Decimal.rev.
  do 10 (destruct r as [|r];
         [unfold Nat.iter;
          cbn [nat_rect Decimal.Little.succ Decimal.revapp];
          etransitivity; [apply string_of_revapp | reflexivity] |]).
  lia.
Qed.

Lemma decimal_digit (r : nat) :
  (r < 10)%nat → decimal r = String (digit_char r) "".
Proof. intros Hr. do 10 (destruct r as [|r]; [reflexivity |]). lia. Qed.

Lemma digit_char_is_digit (r : nat) :
  (r < 10)%nat → ISO8601.is_digit (digit_char r) = true.
Proof. intros Hr. do 10 (destruct r as [|r]; [reflexivity |]). lia. Qed.

Lemma digit_char_value (r : nat) :
  (r < 10)%nat → digit_value (digit_char r) = r.
Proof. intros Hr. do 10 (destruct r as [|r]; [reflexivity |]). lia. Qed.

Lemma zfill4_read (y : nat) :
  (1900 ≤ y < 100 * 100)%nat → four_digits (zfill 4 y) = Some y.
Proof.
  intros Hy.
  pose proof (Nat.div_mod_eq y 10) as E1.
  pose proof (Nat.mod_upper_bound y 10) as B1.
  pose proof (Nat.div_mod_eq (y / 10) 10) as E2.
  pose proof (Nat.mod_upper_bound (y / 10) 10) as B2.
  pose proof (Nat.div_mod_eq (y / 10 / 10) 10) as E3.
  pose proof (Nat.mod_upper_bound (y / 10 / 10) 10) as B3.
  revert E1 B1 E2 B2 E3 B3.
  generalize (y mod 10)%nat, (y / 10 mod 10)%nat, (y / 10 / 10 mod 10)%nat,
             (y / 10 / 10 / 10)%nat.
  generalize (y / 10 / 10)%nat, (y / 10)%nat.
  intros q2 q1 r1 r2 r3 q3 E1 B1 E2 B2 E3 B3.
  assert (y = 10 * (10 * (10 * q3 + r3) + r2) + r1)%nat as Hdec by lia.
  assert (r1 < 10 ∧ r2 < 10 ∧ r3 < 10 ∧ 1 ≤ q3 < 10)%nat as (H1 & H2 & H3 & H4)
    by lia.
  clear E1 B1 E2 B2 E3 B3.
  unfold zfill. rewrite Hdec.
  rewrite !decimal_tenfold by lia. rewrite (decimal_digit q3) by lia.
  change (four_digits
            (String (digit_char q3) (String (digit_char r3)
               (String (digit_char r2) (String (digit_char r1) ""))))
          = Some (10 * (10 * (10 * q3 + r3) + r2) + r1)%nat).
  cbn [four_digits].
  rewrite !digit_char_is_digit by lia. cbn [andb].
  rewrite !digit_char_value by lia. f_equal. lia.
Qed.

Lemma two_digits_shape (s : string) (n : nat) :
  two_digits s = Some n →
  ∃ a b, s = String a (String b "") ∧
         ISO8601.is_digit a = true ∧ ISO8601.is_digit b = true.
Proof.
  destruct s as [|a [|b [|c s]]]; try discriminate. simpl.
  destruct (ISO8601.is_digit a) eqn:Ha, (ISO8601.is_digit b) eqn:Hb;
    try discriminate.
  intros _. by exists a, b.
Qed.

Lemma four_digits_shape (s : string) (n : nat) :
  four_digits s = Some n →
  ∃ a b c d, s = String a (String b (String c (String d ""))) ∧
             ISO8601.is_digit a = true ∧ ISO8601.is_digit b = true ∧
             ISO8601.is_digit c = true ∧ ISO8601.is_digit d = true.
Proof.
  destruct s as [|a [|b [|c [|d [|x s]]]]]; try discriminate. simpl.
  destruct (ISO8601.is_digit a) eqn:Ha, (ISO8601.is_digit b) eqn:Hb,
           (ISO8601.is_digit c) eqn:Hc, (ISO8601.is_digit d) eqn:Hd;
    try discriminate.
  intros _. by exists a, b, c, d.
Qed.

Lemma in_range_fields (t : datetime) :
  in_range t →
  four_digits (zfill 4 (year t)) = Some (year t) ∧
  two_digits (zfill 2 (month t)) = Some (month t) ∧
  two_digits (zfill 2 (day t)) = Some (day t) ∧
  two_digits (zfill 2 (hour t)) = Some (hour t) ∧
  two_digits (zfill 2 (minute t)) = Some (minute t) ∧
  two_digits (zfill 2 (second t)) = Some (second t).
Proof.
  intros (Hy & Hm & Hd & Hh & Hmi & Hs).
  split; [by apply zfill4_read |].
  repeat split; apply zfill2_read; lia.
Qed.

Lemma stamp_length (t : datetime) :
  in_range t → String.length (stamp_of t) = 19%nat.
Proof.
  intros Hr.
  destruct (in_range_fields t Hr) as (Hy & Hmo & Hd & Hh & Hmi & Hs).
  apply four_digits_shape in Hy as (? & ? & ? & ? & Hy & _).
  apply two_digits_shape in Hmo as (? & ? & Hmo & _).
  apply two_digits_shape in Hd as (? & ? & Hd & _).
  apply two_digits_shape in Hh as (? & ? & Hh & _).
  apply two_digits_shape in Hmi as (? & ? & Hmi & _).
  apply two_digits_shape in Hs as (? & ? & Hs & _).
  unfold stamp_of. by rewrite Hy, Hmo, Hd, Hh, Hmi, Hs.
Qed.

(** X8: for every date and time a [datetime] can hold from the year 1900
    on, [strftime('%Y-%m-%d_%H-%M-%S')] succeeds and writes 19 characters
    of the shape [dddd-dd-dd_dd-dd-dd]; that text is never an ISO 8601
    combined date and time. *)
Theorem stamp_shape (t : datetime) :
  in_range t →
  strftime t [] = ([], inr (stamp_of t)) ∧
  String.length (stamp_of t) = 19%nat ∧
  ISO8601.shaped "dddd-dd-dd_dd-dd-dd" (stamp_of t) = true ∧
  ISO8601.timestamp (stamp_of t) = false.
Proof.
  intros Hr. split.
  { unfold strftime. destruct Hr as ([Hy _] & _).
    destruct (Nat.ltb_spec (year t) 1900) as [Hlt | _]; [lia | reflexivity]. }
  destruct (in_range_fields t Hr) as (Hy & Hmo & Hd & Hh & Hmi & Hs).
  apply four_digits_shape in Hy as (y1 & y2 & y3 & y4 & Hy & ? & ? & ? & ?).
  apply two_digits_shape in Hmo as (m1 & m2 & Hmo & ? & ?).
  apply two_digits_shape in Hd as (d1 & d2 & Hd & ? & ?).
  apply two_digits_shape in Hh as (h1 & h2 & Hh & ? & ?).
  apply two_digits_shape in Hmi as (i1 & i2 & Hmi & ? & ?).
  apply two_digits_shape in Hs as (s1 & s2 & Hs & ? & ?).
  unfold stamp_of. rewrite Hy, Hmo, Hd, Hh, Hmi, Hs.
  split; [reflexivity |].
  unfold ISO8601.timestamp. cbv -[ISO8601.is_digit].
  repeat match goal with
         | H : ISO8601.is_digit _ = true |- _ => rewrite H; clear H
         end.
  split; reflexivity.
Qed.

Lemma stamp_shape_demo :
  strftime demo_time [] = ([], inr (stamp_of demo_time)) ∧
  String.length (stamp_of demo_time) = 19%nat ∧
  ISO8601.shaped "dddd-dd-dd_dd-dd-dd" (stamp_of demo_time) = true ∧
  ISO8601.timestamp (stamp_of demo_time) = false.
Proof.
  apply (stamp_shape demo_time). unfold in_range. simpl. lia.
Defined.

Lemma append_inj_length (a1 a2 b1 b2 : string) :
  String.length a1 = String.length a2 →
  a1 +:+ b1 = a2 +:+ b2 → a1 = a2 ∧ b1 = b2.
Proof.
  revert a2. induction a1 as [|x a1 IH]; intros [|y a2] Hlen H;
    try discriminate Hlen.
  - by split.
  - change (String x (a1 +:+ b1) = String y (a2 +:+ b2)) in H.
    injection H as -> H. injection Hlen as Hlen.
    destruct (IH a2 Hlen H) as [-> ->]. by split.
Qed.

Lemma append_inj_length_r (a1 a2 b1 b2 : string) :
  String.length b1 = String.length b2 →
  a1 +:+ b1 = a2 +:+ b2 → a1 = a2 ∧ b1 = b2.
Proof.
  intros Hlen H. apply append_inj_length; [| exact H].
  apply (f_equal String.length) in H. rewrite !append_length in H. lia.
Qed.

(** The stamp determines the date and time. *)
Lemma stamp_of_inj (t1 t2 : datetime) :
  in_range t1 → in_range t2 → stamp_of t1 = stamp_of t2 → t1 = t2.
Proof.
  intros Hr1 Hr2 Heq.
  destruct (in_range_fields t1 Hr1) as (Hy1 & Hmo1 & Hd1 & Hh1 & Hmi1 & Hs1).
  destruct (in_range_fields t2 Hr2) as (Hy2 & Hmo2 & Hd2 & Hh2 & Hmi2 & Hs2).
  assert (∀ s n, four_digits s = Some n → String.length s = 4%nat) as Hlen4.
  { intros s n Hs. by apply four_digits_shape in Hs as (? & ? & ? & ? & -> & _). }
  assert (∀ s n, two_digits s = Some n → String.length s = 2%nat) as Hlen2.
  { intros s n Hs. by apply two_digits_shape in Hs as (? & ? & -> & _). }
  unfold stamp_of in Heq.
  apply (append_inj_length (zfill 4 (year t1)) (zfill 4 (year t2)))
    in Heq as [Ey Heq]; [| by rewrite (Hlen4 _ _ Hy1), (Hlen4 _ _ Hy2)].
  apply (inj (String.app "-")) in Heq.
  apply (append_inj_length (zfill 2 (month t1)) (zfill 2 (month t2)))
    in Heq as [Emo Heq]; [| by rewrite (Hlen2 _ _ Hmo1), (Hlen2 _ _ Hmo2)].
  apply (inj (String.app "-")) in Heq.
  apply (append_inj_length (zfill 2 (day t1)) (zfill 2 (day t2)))
    in Heq as [Ed Heq]; [| by rewrite (Hlen2 _ _ Hd1), (Hlen2 _ _ Hd2)].
  apply (inj (String.app "_")) in Heq.
  apply (append_inj_length (zfill 2 (hour t1)) (zfill 2 (hour t2)))
    in Heq as [Eh Heq]; [| by rewrite (Hlen2 _ _ Hh1), (Hlen2 _ _ Hh2)].
  apply (inj (String.app "-")) in Heq.
  apply (append_inj_length (zfill 2 (minute t1)) (zfill 2 (minute t2)))
    in Heq as [Emi Es]; [| by rewrite (Hlen2 _ _ Hmi1), (Hlen2 _ _ Hmi2)].
  apply (inj (String.app "-")) in Es.
  rewrite Ey in Hy1. rewrite Emo in Hmo1. rewrite Ed in Hd1.
  rewrite Eh in Hh1. rewrite Emi in Hmi1. rewrite Es in Hs1.
  destruct t1, t2. simpl in *. f_equal; congruence.
Qed.

Lemma join_relative_inj (a p1 p2 : string) :
  OsPath.startswith_slash p1 = false →
  OsPath.startswith_slash p2 = false →
  OsPath.join a [p1] = OsPath.join a [p2] → p1 = p2.
Proof.
  intros H1 H2. unfold OsPath.join, OsPath.join_step. cbn [fold_left].
  rewrite H1, H2.
  destruct (decide (a = "")); [apply (inj (String.app a)) |].
  destruct (OsPath.endswith_slash a); [apply (inj (String.app a)) |].
  intros H. apply (inj (String.app a)) in H. by injection H.
Qed.

(** X9: two runs under the same projects directory, each with a relative
    project name, get the same project directory exactly when they have
    the same project name and start in the same second: the directory
    name tells project and start time apart, and two runs of one project
    within one second share a directory. *)
Theorem project_dir_unique (e1 e2 : env) (p1 p2 d1 d2 : string) :
  witsGWAS_PROJECTS_DIR e1 = witsGWAS_PROJECTS_DIR e2 →
  working_files e1 !! "projectname" = Some (PyStr p1) →
  working_files e2 !! "projectname" = Some (PyStr p2) →
  OsPath.startswith_slash p1 = false →
  OsPath.startswith_slash p2 = false →
  in_range (now e1) →
  in_range (now e2) →
  CURRENT_PROJECT_DIR e1 [] = ([], inr d1) →
  CURRENT_PROJECT_DIR e2 [] = ([], inr d2) →
  d1 = d2 ↔ p1 = p2 ∧ now e1 = now e2.
Proof.
  intros Hroot Hp1 Hp2 Hrel1 Hrel2 Hr1 Hr2 Hd1 Hd2.
  apply current_project_dir_inv in Hd1 as (q1 & Hq1 & _ & -> & _).
  apply current_project_dir_inv in Hd2 as (q2 & Hq2 & _ & -> & _).
  assert (q1 = p1) as -> by congruence.
  assert (q2 = p2) as -> by congruence.
  unfold dir_of. rewrite Hroot. split.
  - intros Heq.
    rewrite <- !append_assoc in Heq. apply append_cancel_r in Heq.
    apply append_inj_length_r in Heq as [Heq Hstamp].
    2:{ by rewrite (stamp_length _ Hr1), (stamp_length _ Hr2). }
    apply append_cancel_r in Heq.
    split; [by eapply join_relative_inj | by apply stamp_of_inj].
  - by intros [-> ->].
Qed.

Lemma project_dir_unique_demo :
  dir_of demo "demo" = dir_of demo_later "demo" ↔
  "demo" = "demo" ∧ now demo = now demo_later.
Proof.
  apply (project_dir_unique demo demo_later "demo" "demo").
  - reflexivity.
  - reflexivity.
  - reflexivity.
  - reflexivity.
  - reflexivity.
  - unfold in_range. simpl. lia.
  - unfold in_range. simpl. lia.
  - reflexivity.
  - reflexivity.
Defined.

Example one_second_later :
  dir_of demo_later "demo" =
  "/projects/demo-pipeline_quickstart-2015-03-04_05-06-08/".
Proof. reflexivity. Qed.
